(** * The [showimage] page of the ASP.NET integration (pluginwiris)

    A shallow embedding of [pluginwiris.showimage] (the page that serves
    the image of a stored formula, rendering it remotely when needed) and
    the verification of its cache, descriptor-parsing and
    parameter-building behaviour.

    - Hashtables with string keys and string values are [gmap string string];
      an absent key reads as C#'s [null].
    - The file system, the log of file accesses and the log of calls to the
      remote renderer form the [World] threaded through the handler.
    - C# exceptions are the [Exception] results of the monad [M]; which
      exception a failed open raises is a parameter, as [Libwiris] is. *)

From Stdlib Require Import String Ascii.
From stdpp Require Import gmap strings list fin_maps pretty.

Local Open Scope string_scope.
Local Open Scope nat_scope.
Local Open Scope list_scope.
Local Open Scope stdpp_scope.

(** ** .NET base class library functions used by the page *)

Module DotNet.

(** [Char.IsWhiteSpace] on the characters below 256. *)
Definition IsWhiteSpace (c : ascii) : bool :=
  let n := nat_of_ascii c in
  (((9 <=? n) && (n <=? 13)) || (n =? 32) || (n =? 133) || (n =? 160))%nat.

Fixpoint TrimStart (s : string) : string :=
  match s with
  | "" => ""
  | String c rest => if IsWhiteSpace c then TrimStart rest else s
  end.

Definition TrimEnd (s : string) : string :=
  String.rev (TrimStart (String.rev s)).

(** [String.Trim()]. *)
Definition Trim (s : string) : string := TrimEnd (TrimStart s).

(** [String.Split(sep)]: empty entries are kept, so the result always has
    at least one element. *)
Fixpoint Split (sep : ascii) (s : string) : list string :=
  match s with
  | "" => [""]
  | String c rest =>
      if Ascii.eqb c sep then "" :: Split sep rest
      else match Split sep rest with
           | w :: ws => String c w :: ws
           | [] => [String c ""]
           end
  end.

(** Index of the last character satisfying [p] ([-1] is [None]). *)
Fixpoint LastIndexWhere (p : ascii → bool) (s : string) : option nat :=
  match s with
  | "" => None
  | String c rest =>
      match LastIndexWhere p rest with
      | Some i => Some (S i)
      | None => if p c then Some 0 else None
      end
  end.

Fixpoint existsChar (p : ascii → bool) (s : string) : bool :=
  match s with
  | "" => false
  | String c rest => p c || existsChar p rest
  end.

(** [Path.HasIllegalCharacters]: double quote, [<], [>], [|] and the
    control characters. *)
Definition IllegalPathChar (c : ascii) : bool :=
  let n := nat_of_ascii c in
  ((n =? 34) || (n =? 60) || (n =? 62) || (n =? 124) || (n <? 32))%nat.

(** [DirectorySeparatorChar], [AltDirectorySeparatorChar] and
    [VolumeSeparatorChar]. *)
Definition IsSeparator (c : ascii) : bool :=
  let n := nat_of_ascii c in
  ((n =? 92) || (n =? 47) || (n =? 58))%nat.

(** [Path.GetFileName]; [None] is the [ArgumentException] raised on an
    illegal character. *)
Definition GetFileName (path : string) : option string :=
  if existsChar IllegalPathChar path then None
  else
    Some (match LastIndexWhere IsSeparator path with
          | Some i => substring (i + 1) (String.length path - i - 1) path
          | None => path
          end).

(** [Path.GetFileNameWithoutExtension]. *)
Definition GetFileNameWithoutExtension (path : string) : option string :=
  match GetFileName path with
  | None => None
  | Some name =>
      Some (match LastIndexWhere (Ascii.eqb ".") name with
            | Some i => substring 0 i name
            | None => name
            end)
  end.

(** [key.Length >= 4 && key.Substring(0, 4) == "font"]. *)
Definition StartsWithFont (key : string) : bool :=
  (4 <=? String.length key)%nat && String.eqb (substring 0 4 key) "font".

(** ["font" + n] for an [int] [n]: the decimal digits of [n]. *)
Definition fontKey (n : nat) : string := "font" +:+ pretty n.

(** [Char.ToUpperInvariant], as far as comparing characters below 256
    goes: the letters [a]-[z] and [à]-[þ] have their capitals 32 below;
    the capitals of [µ] and [ÿ] are above 255, so these two equal no other
    character below 256 and are left as they are. *)
Definition ToUpperInvariant (c : ascii) : ascii :=
  let n := nat_of_ascii c in
  if (((97 <=? n) && (n <=? 122))
      || ((224 <=? n) && (n <=? 254) && negb (n =? 247)))%nat
  then ascii_of_nat (n - 32) else c.

Fixpoint ToUpper (s : string) : string :=
  match s with
  | "" => ""
  | String c rest => String (ToUpperInvariant c) (ToUpper rest)
  end.

(** [String.Equals(a, b, StringComparison.OrdinalIgnoreCase)], the
    comparison of the names of [Request.QueryString]; a file system that
    ignores case compares the names of files alike. *)
Definition EqualsIgnoreCase (a b : string) : bool :=
  String.eqb (ToUpper a) (ToUpper b).

End DotNet.
Import DotNet.

(** ** Request data *)

(** [Request.QueryString]: the entries of the collection, one per key of
    [AllKeys], in order, each key spelled as the query first spells it
    (the collection keeps one entry for the names that differ in case
    only).  A key can be [null] (a value without a name). *)
Definition QueryString := list (option string * string).

Definition AllKeys (q : QueryString) : list (option string) := q.*1.

(** [Request.QueryString[name]]: the collection looks a name up ignoring
    case, so that [Formula=eq1] answers to ["formula"]. *)
Fixpoint Item (q : QueryString) (name : string) : option string :=
  match q with
  | [] => None
  | (Some k, v) :: rest => if EqualsIgnoreCase k name then Some v else Item rest name
  | (None, _) :: rest => Item rest name
  end.

Record Request := {
  Query : QueryString;
  Referer : string
}.

(** [toReturn] of the two descriptor readers: a Hashtable with exactly the
    keys ["mathml"], ["config"] and ["fonts"]. *)
Record ConfigAndFonts := {
  mathml : string;
  config : gmap string string;
  fonts : gmap string string
}.

(** ** The world of the handler: files, file accesses, renderer calls *)

Inductive Exception :=
  | ArgumentException          (* illegal character in a path *)
  | ArgumentNullException      (* a Hashtable indexed with [null] *)
  | NullReferenceException     (* a method called on [null] *)
  | FileNotFoundException (path : string)
  | DirectoryNotFoundException (path : string)
  | PathTooLongException
  | IOException (path : string)  (* the file cannot be created or written *)
  | WebException.              (* the remote call failed *)

Inductive FileAccess :=
  | Probe (path : string)      (* [File.Exists] *)
  | Read (path : string)       (* [StreamReader], [Response.WriteFile], [parseIni] *)
  | Create (path : string).    (* [new FileStream(path, FileMode.Create, FileAccess.Write)] *)

Definition accessPath (a : FileAccess) : string :=
  match a with Probe p | Read p | Create p => p end.

Definition RenderCall : Type := string * gmap string string * string.

Record World := {
  files : gmap string (list Byte.byte);
  unwritable : gset string;            (* paths whose creation fails *)
  accesses : list FileAccess;          (* oldest first *)
  renders : list RenderCall            (* oldest first *)
}.

(** A computation returns a value or raises, and leaves a world behind in
    both cases. *)
Definition M (A : Type) : Type := World → (Exception + A) * World.

Definition ret {A} (a : A) : M A := λ w, (inr a, w).
Definition raise {A} (e : Exception) : M A := λ w, (inl e, w).
Definition bind {A B} (m : M A) (k : A → M B) : M B :=
  λ w, match m w with
       | (inr a, w') => k a w'
       | (inl e, w') => (inl e, w')
       end.
Definition lift {A} (r : Exception + A) : M A := λ w, (r, w).

Declare Scope io_scope.
Delimit Scope io_scope with io.
Notation "'let*' x ':=' m 'in' k" := (bind m (λ x, k))
  (at level 10, x name, m at level 100, k at level 200) : io_scope.
Notation "m ;;; k" := (bind m (λ _, k))
  (at level 100, right associativity) : io_scope.
Local Open Scope io_scope.

Definition logged (a : FileAccess) (w : World) : World :=
  {| files := files w; unwritable := unwritable w;
     accesses := accesses w ++ [a]; renders := renders w |}.

Definition stored (path : string) (bytes : list Byte.byte) (w : World) : World :=
  {| files := <[path := bytes]> (files w); unwritable := unwritable w;
     accesses := accesses w; renders := renders w |}.

Definition called (c : RenderCall) (w : World) : World :=
  {| files := files w; unwritable := unwritable w;
     accesses := accesses w; renders := renders w ++ [c] |}.

Definition logAccess (a : FileAccess) : M unit := λ w, (inr tt, logged a w).

Definition setFile (path : string) (bytes : list Byte.byte) : M unit :=
  λ w, (inr tt, stored path bytes w).

(** [File.Exists(path)]. *)
Definition File_Exists (path : string) : M bool :=
  logAccess (Probe path) ;;;
  λ w, (inr (bool_decide (is_Some (files w !! path))), w).

(** What opening a path for reading raises when there is no file to open
    under it: [FileNotFoundException] when only the file is missing,
    [DirectoryNotFoundException] when a directory of the path is,
    [ArgumentException] when the name has a [*] or a [?],
    [PathTooLongException] when the path is too long.  Which one is the
    business of the framework and of the directories, and the page
    creates and removes no directory: it is a parameter of the page. *)
Class FileSystem := {
  OpenFailure : string → Exception
}.

(** Opening [path] for reading and reading it to the end. *)
Definition ReadAllBytes `{FileSystem} (path : string) : M (list Byte.byte) :=
  logAccess (Read path) ;;;
  λ w, match files w !! path with
       | Some bytes => (inr bytes, w)
       | None => (inl (OpenFailure path), w)
       end.

(** [new StreamReader(path).ReadToEnd()], one character per byte. *)
Definition ReadToEnd `{FileSystem} (path : string) : M string :=
  let* bytes := ReadAllBytes path in ret (string_of_list_byte bytes).

(** [new FileStream(path, FileMode.Create, FileAccess.Write)]: the file is
    created empty, or truncated. *)
Definition FileStream_Create (path : string) : M unit :=
  logAccess (Create path) ;;;
  λ w, if bool_decide (path ∈ unwritable w) then (inl (IOException path), w)
       else setFile path [] w.

(** [writer.Write(buffer, 0, bytesRead)] on the stream opened on [path]. *)
Definition Writer_Write (path : string) (chunk : list Byte.byte) : M unit :=
  λ w, setFile path (default [] (files w !! path) ++ chunk) w.

(** ** What [Libwiris] provides

    [Libwiris] is not part of the sources at hand: its tables and functions
    are the fields of a class, and the page is parametric in it. *)

Class Libwiris := {
  (** [Libwiris.xmlFileAttributes]. *)
  xmlFileAttributes : list string;
  (** [Libwiris.imageConfigProperties]: server parameter ↦ configuration key. *)
  imageConfigProperties : gmap string string;
  (** [Libwiris.parseIni], on the contents of the file: the entries of the
      Hashtable it returns, in the order in which [foreach] enumerates them. *)
  parseIni : string → list (string * string);
  (** [Libwiris.getFormulaDirectory] and [Libwiris.getCacheDirectory]. *)
  getFormulaDirectory : gmap string string → option string;
  getCacheDirectory : gmap string string → option string;
  (** [MapPath(Libwiris.FormulaDirectory)] and [MapPath(Libwiris.CacheDirectory)]. *)
  FormulaDirectory : string;
  CacheDirectory : string;
  (** [Libwiris.getImageServiceURL(config, null)]. *)
  getImageServiceURL : gmap string string → string;
  (** [Libwiris.getContents(url, properties, referer)], read to its end;
      [None] when the remote call fails. *)
  getContents : string → gmap string string → string → option (list Byte.byte)
}.

(** ** The page *)

Section showimage.

Context `{Libwiris} `{FileSystem}.

(** Modelled from the spec: [Libwiris.inArray], which is not in the
    sources; the spec reads it as "name is in the fixed attribute-name
    list". *)
Definition inArray (key : string) (array : list string) : bool :=
  existsb (String.eqb key) array.

(** The condition of the two query-string loops:
    [key != null && (inArray(key, xmlFileAttributes) ||
     (key.Length >= 4 && key.Substring(0, 4) == "font"))]. *)
Definition isUserParam (key : option string) : bool :=
  match key with
  | None => false
  | Some key => inArray key xmlFileAttributes || StartsWithFont key
  end.

(** *** [mustBeCached] *)

Fixpoint mustBeCached_loop (keys : list (option string)) : bool :=
  match keys with
  | [] => true
  | key :: rest => if isUserParam key then false else mustBeCached_loop rest
  end.

Definition mustBeCached (request : Request) : bool :=
  mustBeCached_loop (AllKeys (Query request)).

(** *** [getConfigurationAndFonts]: the line format *)

(** First [while]: line [i] goes to the configuration key of attribute [j]. *)
Fixpoint attributesLoop (lines attributes : list string)
    (config : gmap string string)
    : Exception + (gmap string string * list string) :=
  match lines, attributes with
  | line :: lines', attribute :: attributes' =>
      match imageConfigProperties !! attribute with
      | Some key => attributesLoop lines' attributes' (<[key := Trim line]> config)
      | None => inl ArgumentNullException
      end
  | _, _ => inr (config, lines)
  end.

(** Second [while]: the remaining non-empty lines are [font0], [font1], ... *)
Fixpoint fontsLoop (lines : list string) (j : nat) (fonts : gmap string string)
    : gmap string string :=
  match lines with
  | [] => fonts
  | l :: lines' =>
      let line := Trim l in
      if (0 <? String.length line)%nat
      then fontsLoop lines' (S j) (<[fontKey j := line]> fonts)
      else fontsLoop lines' j fonts
  end.

Definition parseLines (config : gmap string string) (content : string)
    : Exception + ConfigAndFonts :=
  match Split "010" content with
  | [] => inr {| mathml := ""; config := config; fonts := ∅ |}
  | first :: lines =>
      match attributesLoop lines xmlFileAttributes config with
      | inl e => inl e
      | inr (config', lines') =>
          inr {| mathml := Trim first; config := config';
                 fonts := fontsLoop lines' 0 ∅ |}
      end
  end.

Definition getConfigurationAndFonts (config : gmap string string)
    (formulaFile : string) : M ConfigAndFonts :=
  let* content := ReadToEnd formulaFile in lift (parseLines config content).

(** *** [getConfigurationAndFontsFromIni]: the key/value format *)

(** [formulaConfig[name]]. *)
Fixpoint entryOf (formulaConfig : list (string * string)) (name : string)
    : option string :=
  match formulaConfig with
  | [] => None
  | (k, v) :: rest => if String.eqb k name then Some v else entryOf rest name
  end.

Fixpoint iniLoop (entries : list (string * string))
    (config fonts : gmap string string)
    : Exception + (gmap string string * gmap string string) :=
  match entries with
  | [] => inr (config, fonts)
  | (key, v) :: rest =>
      if String.eqb key "mml" then iniLoop rest config fonts
      else
        let value := Trim v in
        if StartsWithFont key then iniLoop rest config (<[key := value]> fonts)
        else match imageConfigProperties !! key with
             | Some configKey => iniLoop rest (<[configKey := value]> config) fonts
             | None => inl ArgumentNullException
             end
  end.

Definition fromIniEntries (config : gmap string string)
    (formulaConfig : list (string * string)) : Exception + ConfigAndFonts :=
  match iniLoop formulaConfig config ∅ with
  | inl e => inl e
  | inr (config', fonts') =>
      match entryOf formulaConfig "mml" with
      | Some mml => inr {| mathml := Trim mml; config := config'; fonts := fonts' |}
      | None => inl NullReferenceException
      end
  end.

Definition getConfigurationAndFontsFromIni (config : gmap string string)
    (formulaFile : string) : M ConfigAndFonts :=
  let* content := ReadToEnd formulaFile in
  lift (fromIniEntries config (parseIni content)).

(** *** One descriptor, two formats

    The two formats as the specification describes them, to compare the
    two readers.  What a formula file is meant to hold, whatever its
    format: the MathML, the values of the first attributes of
    [xmlFileAttributes], in the order of that list, and the values of
    [font0], [font1], ... *)
Record Descriptor := {
  payload : string;
  attributeValues : list string;
  fontValues : list string
}.

(** Line format: the MathML on the first line, then one attribute value
    per line, then one font per line. *)
Definition inLineFormat (d : Descriptor) (content : string) : Prop :=
  Split "010" content = payload d :: attributeValues d ++ fontValues d.

Fixpoint numbered (j : nat) (values : list string) : list (string * string) :=
  match values with
  | [] => []
  | v :: values' => (fontKey j, v) :: numbered (S j) values'
  end.

(** Key/value format: [mml], each attribute under its name, each font
    under its [fontN]; a Hashtable enumerates them in some order. *)
Definition keyValueEntries (d : Descriptor) : list (string * string) :=
  ("mml", payload d) :: zip xmlFileAttributes (attributeValues d)
    ++ numbered 0 (fontValues d).

Definition inKeyValueFormat (d : Descriptor) (formulaConfig : list (string * string))
    : Prop :=
  formulaConfig ≡ₚ keyValueEntries d.

(** The names of the attributes a descriptor gives a value to. *)
Definition attributeNames (d : Descriptor) : list string :=
  take (length (attributeValues d)) xmlFileAttributes.

(** The descriptors that both formats can hold, and read alike: fonts
    come after a full set of attribute lines and are not blank; the
    attributes given are translated, to distinct configuration keys, and
    none is named [mml] or starts with [font]. *)
Definition readAlike (d : Descriptor) : Prop :=
  (length (attributeValues d) ≤ length xmlFileAttributes)%nat
  ∧ (fontValues d = [] ∨ length (attributeValues d) = length xmlFileAttributes)
  ∧ Forall (λ name, is_Some (imageConfigProperties !! name)
                    ∧ name ≠ "mml" ∧ StartsWithFont name = false)
           (attributeNames d)
  ∧ NoDup (omap (λ name, imageConfigProperties !! name) (attributeNames d))
  ∧ Forall (λ v, Trim v ≠ "") (fontValues d).

(** [table[key] = value]. *)
Definition put (table : gmap string string) (entry : string * string)
    : gmap string string :=
  <[entry.1 := entry.2]> table.

(** The configuration entries the line reader makes of the attribute
    lines. *)
Definition configEntries (names values : list string) : list (string * string) :=
  omap (λ '(name, v), (λ key, (key, Trim v)) <$> imageConfigProperties !! name)
       (zip names values).

(** What the key/value reader sends to the configuration and to the
    fonts. *)
Definition iniConfigEntries (entries : list (string * string))
    : list (string * string) :=
  omap (λ '(key, v),
          if String.eqb key "mml" then None
          else if StartsWithFont key then None
          else (λ configKey, (configKey, Trim v)) <$> imageConfigProperties !! key)
       entries.

Definition iniFontEntries (entries : list (string * string))
    : list (string * string) :=
  omap (λ '(key, v),
          if String.eqb key "mml" then None
          else if StartsWithFont key then Some (key, Trim v)
          else None)
       entries.

(** *** What the readers accept *)

(** An attribute that [imageConfigProperties] translates. *)
Definition translated (attribute : string) : bool :=
  bool_decide (is_Some (imageConfigProperties !! attribute)).

(** A key the key/value reader can place: [mml], a font, or a key that
    [imageConfigProperties] translates. *)
Definition knownKey (key : string) : bool :=
  String.eqb key "mml" || StartsWithFont key || translated key.

(** The lines of a file in line format that become fonts: those after the
    lines of the attributes that are not blank. *)
Definition fontLines (content : string) : list string :=
  filter (λ l, Trim l ≠ "")
         (drop (length xmlFileAttributes) (tail (Split "010" content))).

(** *** [createImage] *)

(** The two retrocompatibility rules. *)
Definition retrocompatibility (config : gmap string string) : gmap string string :=
  let config :=
    match config !! "wirisimagenumbercolor", config !! "wirisimagesymbolcolor" with
    | None, Some symbolcolor => <["wirisimagenumbercolor" := symbolcolor]> config
    | _, _ => config
    end in
  match config !! "wirisimageidentcolor", config !! "wirisimagesymbolcolor" with
  | None, Some symbolcolor => <["wirisimageidentcolor" := symbolcolor]> config
  | _, _ => config
  end.

(** Converting configuration to parameters: [foreach] over
    [imageConfigProperties]. *)
Definition configToParameters (config properties : gmap string string)
    : gmap string string :=
  map_fold (λ serverParam configKey properties,
              match config !! configKey with
              | Some v => <[serverParam := Trim v]> properties
              | None => properties
              end)
           properties imageConfigProperties.

(** The [foreach] over the font range names; [carry] is read once, before
    the loop. *)
Fixpoint fontRangesLoop (config : gmap string string) (carry : nat)
    (fontRanges : list string) (i : nat) (fonts : gmap string string)
    : gmap string string :=
  match fontRanges with
  | [] => fonts
  | fontRangeName :: rest =>
      let fontRangeNameTrimmed := Trim fontRangeName in
      match config !! fontRangeNameTrimmed with
      | Some v =>
          fontRangesLoop config carry rest (S i)
            (<[fontKey (carry + i) := Trim v]> fonts)
      | None => fontRangesLoop config carry rest i fonts
      end
  end.

Definition addFontRanges (config fonts : gmap string string) : gmap string string :=
  match config !! "wirisimagefontranges" with
  | Some ranges => fontRangesLoop config (size fonts) (Split "," ranges) 0 fonts
  | None => fonts
  end.

(** The values of the range names that resolve, in the order of the list. *)
Definition resolvedRanges (config : gmap string string) (fontRanges : list string)
    : list string :=
  omap (λ fontRangeName, config !! Trim fontRangeName) fontRanges.

(** Every key of [fonts] starts with ["font"]. *)
Definition fontKeys (fonts : gmap string string) : Prop :=
  ∀ key, is_Some (fonts !! key) → StartsWithFont key = true.

(** Converting fonts to parameters: [foreach] over [fonts]. *)
Definition fontsToParameters (fonts properties : gmap string string)
    : gmap string string :=
  map_fold (λ key value properties, <[key := value]> properties) properties fonts.

(** User params: [foreach] over [Request.QueryString.AllKeys]. *)
Fixpoint userParamsLoop (query : QueryString) (keys : list (option string))
    (properties : gmap string string) : gmap string string :=
  match keys with
  | [] => properties
  | key :: rest =>
      userParamsLoop query rest
        (match key with
         | Some k =>
             if isUserParam key
             then match Item query k with
                  | Some v => <[k := v]> properties
                  | None => properties
                  end
             else properties
         | None => properties
         end)
  end.

Definition userParams (query : QueryString) (properties : gmap string string)
    : gmap string string :=
  userParamsLoop query (AllKeys query) properties.

(** The configuration with which [createImage] ends. *)
Definition finalConfig (configAndFonts : ConfigAndFonts) : gmap string string :=
  retrocompatibility (config configAndFonts).

(** The fonts after the font ranges have been added. *)
Definition finalFonts (configAndFonts : ConfigAndFonts) : gmap string string :=
  addFontRanges (finalConfig configAndFonts) (fonts configAndFonts).

(** The values [createImage] adds to the fonts for the font ranges. *)
Definition addedRanges (configAndFonts : ConfigAndFonts) : list string :=
  match finalConfig configAndFonts !! "wirisimagefontranges" with
  | Some ranges => resolvedRanges (finalConfig configAndFonts) (Split "," ranges)
  | None => []
  end.

(** [properties] just before the user params are considered. *)
Definition computedProperties (configAndFonts : ConfigAndFonts) : gmap string string :=
  let config := finalConfig configAndFonts in
  let properties := {[ "mml" := mathml configAndFonts ]} in
  let properties := configToParameters config properties in
  fontsToParameters (finalFonts configAndFonts) properties.

(** [properties], as [createImage] hands it to [getContents]. *)
Definition imageProperties (request : Request) (configAndFonts : ConfigAndFonts)
    (useParams : bool) : gmap string string :=
  let properties := computedProperties configAndFonts in
  if useParams then userParams (Query request) properties else properties.

(** The remote call, recorded in the world. *)
Definition Libwiris_getContents (url : string) (properties : gmap string string)
    (referer : string) : M (list Byte.byte) :=
  λ w, let w' := called (url, properties, referer) w in
       match getContents url properties referer with
       | Some stream => (inr stream, w')
       | None => (inl WebException, w')
       end.

Definition loadConfigAndFonts (config : gmap string string)
    (formulaPath formulaPathExtension : string) : M ConfigAndFonts :=
  if String.eqb formulaPathExtension "ini"
  then getConfigurationAndFontsFromIni config (formulaPath +:+ ".ini")
  else getConfigurationAndFonts config (formulaPath +:+ ".xml").

Definition createImage (request : Request) (config : gmap string string)
    (formulaPath formulaPathExtension : string) (useParams : bool)
    : M (list Byte.byte) :=
  let* configAndFonts := loadConfigAndFonts config formulaPath formulaPathExtension in
  Libwiris_getContents (getImageServiceURL (finalConfig configAndFonts))
    (imageProperties request configAndFonts useParams) (Referer request).

(** *** [saveImage] *)

#[warnings="-abstract-large-number"]
Definition bufferLength : nat := 8192.

(** The copy loop: [fuel] bounds the number of reads. *)
Fixpoint copyLoop (fuel : nat) (imagePath : string) (stream : list Byte.byte)
    : M unit :=
  match fuel with
  | 0 => ret tt
  | S fuel' =>
      let buffer := take bufferLength stream in
      if (0 <? length buffer)%nat
      then Writer_Write imagePath buffer ;;;
           copyLoop fuel' imagePath (drop bufferLength stream)
      else ret tt
  end.

Definition saveImage (imagePath : string) (stream : list Byte.byte) : M unit :=
  FileStream_Create imagePath ;;;
  copyLoop (S (length stream)) imagePath stream.

Definition createAndSaveImage (request : Request) (config : gmap string string)
    (formulaPath formulaPathExtension imagePath : string) : M unit :=
  let* imageStream := createImage request config formulaPath formulaPathExtension false in
  saveImage imagePath imageStream.

(** *** [Page_Load] *)

(** The extension [Page_Load] settles on for [formulaPath], the file the
    reader then opens, and what the reader returns. *)
Definition extensionOf (formulaPath : string) (w : World) : string :=
  if bool_decide (is_Some (files w !! (formulaPath +:+ ".ini"))) then "ini" else "xml".

Definition descriptorPath (formulaPath formulaPathExtension : string) : string :=
  if String.eqb formulaPathExtension "ini"
  then formulaPath +:+ ".ini" else formulaPath +:+ ".xml".

Definition loadedFrom (config : gmap string string)
    (formulaPath formulaPathExtension : string) (w : World)
    : Exception + ConfigAndFonts :=
  (loadConfigAndFonts config formulaPath formulaPathExtension w).1.

Inductive Response :=
  | File (contentType : string) (bytes : list Byte.byte)
  | Text (text : string).

(** [Response.ContentType = "image/png"; Response.WriteFile(imagePath)]. *)
Definition Response_WriteFile (imagePath : string) : M Response :=
  let* bytes := ReadAllBytes imagePath in ret (File "image/png" bytes).

Definition formulaDirectory (config : gmap string string) : string :=
  match getFormulaDirectory config with
  | Some d => d
  | None => FormulaDirectory
  end.

Definition cacheDirectory (config : gmap string string) : string :=
  match getCacheDirectory config with
  | Some d => d
  | None => CacheDirectory
  end.

(** The paths [Page_Load] computes for the stem [formula]. *)
Definition formulaPathOf (config : gmap string string) (formula : string) : string :=
  formulaDirectory config +:+ "/" +:+ formula.

Definition imagePathOf (config : gmap string string) (formula : string) : string :=
  cacheDirectory config +:+ "/" +:+ formula +:+ ".png".

(** The single slot of the [mml] requests. *)
Definition tempPathOf (config : gmap string string) : string :=
  cacheDirectory config +:+ "/temp.png".

(** A request turned down by an exception before any file was touched. *)
Definition rejectedBeforeAccess {A} (run : (Exception + A) * World) (w : World) : Prop :=
  (∃ e, run.1 = inl e) ∧ accesses run.2 = accesses w.

(** [Page_Load], from the point where [config] has been loaded. *)
Definition Page_Load (config : gmap string string) (request : Request) : M Response :=
  match Item (Query request) "formula" with
  | Some id =>
      match GetFileNameWithoutExtension id with
      | None => raise ArgumentException
      | Some formula =>
          let formulaPath := formulaDirectory config +:+ "/" +:+ formula in
          let* isIni := File_Exists (formulaPath +:+ ".ini") in
          let extension := if isIni : bool then "ini" else "xml" in
          if mustBeCached request
          then
            let imagePath := cacheDirectory config +:+ "/" +:+ formula +:+ ".png" in
            let* cached := File_Exists imagePath in
            (if cached : bool then ret tt
             else createAndSaveImage request config formulaPath extension imagePath) ;;;
            Response_WriteFile imagePath
          else
            let* imageStream := createImage request config formulaPath extension true in
            ret (File "image/png" imageStream)
      end
  | None =>
      match Item (Query request) "mml" with
      | Some mml =>
          let imagePath := cacheDirectory config +:+ "/temp.png" in
          let properties : gmap string string := {[ "mml" := mml ]} in
          let* responseStream :=
            Libwiris_getContents (getImageServiceURL config) properties
              (Referer request) in
          saveImage imagePath responseStream ;;;
          Response_WriteFile imagePath
      | None => ret (Text "Error: no digest or mathml has been sent")
      end
  end.

End showimage.

(** ** A concrete installation, for the examples

    Tables in the shape of the plugin's configuration, a key/value parser, a
    renderer, and a few files. *)

Module Example.

Definition xmlFileAttributes : list string :=
  ["bgColor"; "symbolColor"; "transparency"; "fontSize"; "numberColor"; "identColor"].

Definition imageConfigProperties : gmap string string :=
  list_to_map
    [("bgColor", "wirisimagebgcolor"); ("symbolColor", "wirisimagesymbolcolor");
     ("transparency", "wiristransparency"); ("fontSize", "wirisimagefontsize");
     ("numberColor", "wirisimagenumbercolor"); ("identColor", "wirisimageidentcolor")].

(** One [key=value] entry per line. *)
Definition parseLine (line : string) : list (string * string) :=
  match index 0 "=" line with
  | Some i => [(substring 0 i line, substring (i + 1) (String.length line - i - 1) line)]
  | None => []
  end.

Definition parseIni (content : string) : list (string * string) :=
  flat_map parseLine (Split "010" content).

Definition getFormulaDirectory (config : gmap string string) : option string :=
  config !! "wirisformuladirectory".
Definition getCacheDirectory (config : gmap string string) : option string :=
  config !! "wiriscachedirectory".

Definition getImageServiceURL (config : gmap string string) : string :=
  "http://" +:+ default "services.example" (config !! "wirisimageservicehost") +:+ "/render".

(** A renderer that answers with the MathML it was sent, and fails
    without one. *)
Definition getContents (url : string) (properties : gmap string string)
    (referer : string) : option (list Byte.byte) :=
  match properties !! "mml" with
  | Some mml => if String.eqb mml "" then None else Some (list_byte_of_string mml)
  | None => None
  end.

#[export] Instance libwiris : Libwiris :=
  Build_Libwiris xmlFileAttributes imageConfigProperties parseIni
    getFormulaDirectory getCacheDirectory "formulas" "cache"
    getImageServiceURL getContents.

(** The directories of the installation exist and its paths are short:
    opening a path without a file fails on a wildcard in the name, or
    else because the file is not found. *)
Definition OpenFailure (path : string) : Exception :=
  if existsChar (λ c, Ascii.eqb c "*" || Ascii.eqb c "?") path
  then ArgumentException else FileNotFoundException path.

#[export] Instance fileSystem : FileSystem := Build_FileSystem OpenFailure.

(** The same installation with a single attribute. *)
Definition oneAttribute : Libwiris :=
  Build_Libwiris ["bgColor"] {[ "bgColor" := "wirisimagebgcolor" ]} parseIni
    getFormulaDirectory getCacheDirectory "formulas" "cache"
    getImageServiceURL getContents.

(** A world with the given text files, where the paths of [locked]
    cannot be created, and nothing has happened yet. *)
Definition world (texts : list (string * string)) (locked : list string) : World :=
  {| files := list_to_map (prod_map id list_byte_of_string <$> texts);
     unwritable := list_to_set locked; accesses := []; renders := [] |}.

(** A request with the given query string. *)
Definition get (q : list (string * string)) : Request :=
  {| Query := prod_map Some id <$> q; Referer := "http://host/page" |}.

Fixpoint unlines (lines : list string) : string :=
  match lines with
  | [] => ""
  | [line] => line
  | line :: rest => line +:+ String "010" (unlines rest)
  end.

(** [eq1]: white background, red symbols. *)
Definition eq1_xml : string := unlines ["<math><mi>x</mi></math>"; "white"; "red"].

Definition eq1 : ConfigAndFonts :=
  {| mathml := "<math><mi>x</mi></math>";
     config := {[ "wirisimagebgcolor" := "white"; "wirisimagesymbolcolor" := "red" ]};
     fonts := ∅ |}.

Definition eq1_png : list Byte.byte := list_byte_of_string "<math><mi>x</mi></math>".

(** The descriptor of the font-range example: two fonts, two ranges of
    which the configuration knows, and one of which it does not. *)
Definition ranged : ConfigAndFonts :=
  {| mathml := "<math/>";
     config := {[ "wirisimagefontranges" := "rangeA, rangeX,rangeB";
                  "rangeA" := "10-20"; "rangeB" := "30-40" ]};
     fonts := {[ "font0" := "Arial"; "font1" := "Courier" ]} |}.

Definition eq1_properties : gmap string string :=
  {[ "mml" := "<math><mi>x</mi></math>"; "bgColor" := "white";
     "symbolColor" := "red"; "numberColor" := "red"; "identColor" := "red" ]}.

Definition eq1_world : World := world [("formulas/eq1.xml", eq1_xml)] [].
Definition eq1_locked : World :=
  world [("formulas/eq1.xml", eq1_xml)] ["cache/eq1.png"].
Definition eq1_request : Request := get [("formula", "eq1"); ("lang", "en")].
Definition eq1_big : Request := get [("formula", "eq1"); ("fontSize", "20")].

(** A formula called [secret], and one called [temp]. *)
Definition secret_world : World := world [("formulas/secret.xml", "<math/>")] [].
Definition secret_request : Request := get [("formula", "../secret")].
Definition temp_world : World := world [("formulas/temp.xml", "<mn>1</mn>")] [].
Definition mml_request : Request := get [("mml", "<mi>x</mi>")].
Definition temp_request : Request := get [("formula", "temp")].

(** A descriptor with a font size, in both formats. *)
Definition sized : Descriptor :=
  {| payload := "<math/>"; attributeValues := ["white"; "black"; ""; "12"];
     fontValues := [] |}.
Definition sized_xml : string := unlines ["<math/>"; "white"; "black"; ""; "12"].
Definition sized_ini : string :=
  unlines ["mml=<math/>"; "bgColor=white"; "symbolColor=black"; "transparency=";
           "fontSize=12"].

(** A descriptor without a font size, in both formats. *)
Definition plain : Descriptor :=
  {| payload := " <math/>"; attributeValues := ["white"; " black "];
     fontValues := [] |}.
Definition plain_xml : string := unlines [" <math/>"; "white"; " black "].
Definition plain_ini : string :=
  unlines ["symbolColor= black "; "mml= <math/>"; "bgColor=white"].

(** A descriptor with a blank first font, in both formats. *)
Definition blank : Descriptor :=
  {| payload := "<math/>"; attributeValues := ["white"]; fontValues := [""; "Arial"] |}.
Definition blank_xml : string := unlines ["<math/>"; "white"; ""; "Arial"].
Definition blank_ini : string :=
  unlines ["mml=<math/>"; "bgColor=white"; "font0="; "font1=Arial"].

(** A file in line format with all the attributes and two fonts, a blank
    line between them. *)
Definition fonts_xml : string :=
  unlines ["<math/>"; "white"; "red"; ""; "12"; "blue"; "green";
           " Arial "; " "; "Courier"].

(** A server configuration with a font range. *)
Definition server : gmap string string :=
  {[ "wirisimagefontranges" := "rangeA"; "rangeA" := "10-20" ]}.

(** An installation whose second attribute has no translation. *)
Definition untranslated : Libwiris :=
  Build_Libwiris ["bgColor"; "zoom"] {[ "bgColor" := "wirisimagebgcolor" ]} parseIni
    getFormulaDirectory getCacheDirectory "formulas" "cache"
    getImageServiceURL getContents.

(** What the line reader makes of [fonts_xml] on top of [server]. *)
Definition fonts_descriptor : ConfigAndFonts :=
  {| mathml := "<math/>";
     config := {[ "wirisimagefontranges" := "rangeA"; "rangeA" := "10-20";
                  "wirisimagebgcolor" := "white"; "wirisimagesymbolcolor" := "red";
                  "wiristransparency" := ""; "wirisimagefontsize" := "12";
                  "wirisimagenumbercolor" := "blue";
                  "wirisimageidentcolor" := "green" ]};
     fonts := {[ "font0" := "Arial"; "font1" := "Courier" ]} |}.

(** What both readers make of [plain]. *)
Definition plain_descriptor : ConfigAndFonts :=
  {| mathml := "<math/>";
     config := {[ "wirisimagebgcolor" := "white"; "wirisimagesymbolcolor" := "black" ]};
     fonts := ∅ |}.

(** A formula whose descriptor has no MathML, which the renderer refuses. *)
Definition empty_world : World := world [("formulas/empty.xml", unlines [""; "white"])] [].
Definition empty_request : Request := get [("formula", "empty")].
Definition empty : ConfigAndFonts :=
  {| mathml := ""; config := {[ "wirisimagebgcolor" := "white" ]}; fonts := ∅ |}.

(** A formula with a descriptor in each format. *)
Definition both_world : World :=
  world [("formulas/eq2.ini", "mml=<mn>2</mn>"); ("formulas/eq2.xml", "<mn>0</mn>")] [].
Definition eq2_request : Request := get [("formula", "eq2")].

(** A request for [eq1] under another name, and one that tries to replace
    its MathML. *)
Definition eq1_alias : Request := get [("formula", "../x/eq1.png")].
Definition eq1_forged : Request :=
  get [("formula", "eq1"); ("mml", "<mi>y</mi>"); ("fontSize", "20")].

(** A stream longer than two buffers. *)
#[warnings="-abstract-large-number"]
Definition long_stream : list Byte.byte := replicate 20000 Byte.x61.

End Example.

(** * Properties *)

(** ** Strings *)

Lemma app_string_nil (s : string) : "" +:+ s = s.
Proof. reflexivity. Qed.

Lemma app_string_cons (c : ascii) (s t : string) :
  String c s +:+ t = String c (s +:+ t).
Proof. reflexivity. Qed.

Lemma length_app_string (s t : string) :
  String.length (s +:+ t) = String.length s + String.length t.
Proof.
  induction s as [|c s IH]; [done|].
  rewrite app_string_cons. simpl. by rewrite IH.
Qed.

(** Two strings that end with suffixes of the same length are equal only
    if the suffixes are. *)
Lemma app_string_inv_tail (s1 s2 t1 t2 : string) :
  String.length t1 = String.length t2 →
  s1 +:+ t1 = s2 +:+ t2 → s1 = s2 ∧ t1 = t2.
Proof.
  intros Hlen. revert s2.
  induction s1 as [|c s1 IH]; intros [|d s2] Heq;
    rewrite ?app_string_nil, ?app_string_cons in Heq.
  - done.
  - subst t1. simpl in Hlen. rewrite length_app_string in Hlen. lia.
  - subst t2. simpl in Hlen. rewrite length_app_string in Hlen. lia.
  - injection Heq as -> Heq. destruct (IH _ Heq) as [-> ->]. done.
Qed.

Lemma fontKey_inj (n m : nat) : fontKey n = fontKey m → n = m.
Proof.
  unfold fontKey. intros Heq. apply (inj (String.app "font")) in Heq.
  by apply (inj pretty) in Heq.
Qed.

Lemma StartsWithFont_fontKey (n : nat) : StartsWithFont (fontKey n) = true.
Proof. unfold fontKey, StartsWithFont. by destruct (pretty n). Qed.

Lemma substring_0_length (s : string) : substring 0 (String.length s) s = s.
Proof. induction s as [|c s IH]; simpl; [done|]. by rewrite IH. Qed.

Lemma existsChar_substring_0 (p : ascii → bool) (n : nat) (s : string) :
  existsChar p s = false → existsChar p (substring 0 n s) = false.
Proof.
  revert n. induction s as [|c s IH]; intros [|n]; simpl; try done.
  intros [-> Hs]%orb_false_elim. simpl. by apply IH.
Qed.

(** After the last character satisfying [p] there is no such character. *)
Lemma LastIndexWhere_tail (p : ascii → bool) (s : string) :
  match LastIndexWhere p s with
  | Some i => existsChar p (substring (S i) (String.length s - S i) s) = false
  | None => existsChar p s = false
  end.
Proof.
  induction s as [|c s IH]; simpl; [done|].
  destruct (LastIndexWhere p s) as [i|].
  - done.
  - destruct (p c) eqn:Hc; simpl.
    + by rewrite Nat.sub_0_r, substring_0_length.
    + done.
Qed.

(** The stem of a file name holds no directory or volume separator. *)
Lemma GetFileNameWithoutExtension_no_separator (path formula : string) :
  GetFileNameWithoutExtension path = Some formula →
  existsChar IsSeparator formula = false.
Proof.
  unfold GetFileNameWithoutExtension, GetFileName.
  destruct (existsChar IllegalPathChar path); [done|].
  intros [= <-].
  pose proof (LastIndexWhere_tail IsSeparator path) as Hname.
  destruct (LastIndexWhere IsSeparator path) as [i|].
  - replace (i + 1) with (S i) by lia.
    replace (String.length path - i - 1) with (String.length path - S i) by lia.
    destruct (LastIndexWhere _ (substring _ _ _)); [|done].
    by apply existsChar_substring_0.
  - destruct (LastIndexWhere _ path); [|done].
    by apply existsChar_substring_0.
Qed.

(** ** Building the render parameters *)

Section parameters.

Context `{Libwiris} `{FileSystem}.

Lemma configToParameters_lookup (config properties : gmap string string)
    (serverParam : string) :
  configToParameters config properties !! serverParam =
    match imageConfigProperties !! serverParam with
    | Some configKey =>
        match config !! configKey with
        | Some v => Some (Trim v)
        | None => properties !! serverParam
        end
    | None => properties !! serverParam
    end.
Proof.
  unfold configToParameters.
  apply (map_fold_weak_ind (λ r (m : gmap string string),
    r !! serverParam =
      match m !! serverParam with
      | Some configKey =>
          match config !! configKey with
          | Some v => Some (Trim v)
          | None => properties !! serverParam
          end
      | None => properties !! serverParam
      end)).
  - by rewrite lookup_empty.
  - intros k configKey m r Hfresh IH.
    destruct (decide (k = serverParam)) as [->|Hne].
    + rewrite lookup_insert_eq.
      destruct (config !! configKey); [by rewrite lookup_insert_eq|].
      by rewrite IH, Hfresh.
    + rewrite lookup_insert_ne by done.
      destruct (config !! configKey); [|done].
      by rewrite lookup_insert_ne.
Qed.

Lemma fontsToParameters_lookup (fonts properties : gmap string string)
    (key : string) :
  fontsToParameters fonts properties !! key =
    match fonts !! key with
    | Some v => Some v
    | None => properties !! key
    end.
Proof.
  unfold fontsToParameters.
  apply (map_fold_weak_ind (λ r (m : gmap string string),
    r !! key = match m !! key with Some v => Some v | None => properties !! key end)).
  - by rewrite lookup_empty.
  - intros k v m r Hfresh IH.
    destruct (decide (k = key)) as [->|Hne].
    + by rewrite !lookup_insert_eq.
    + by rewrite !lookup_insert_ne.
Qed.

(** A key of the collection has a value. *)
Lemma Item_is_Some (query : QueryString) (name : string) :
  Some name ∈ AllKeys query → is_Some (Item query name).
Proof.
  unfold AllKeys. induction query as [|[[k|] v] query IH]; simpl.
  - by intros ?%elem_of_nil.
  - intros [[= <-]|Hq]%elem_of_cons.
    + unfold EqualsIgnoreCase. rewrite String.eqb_refl. by eexists.
    + destruct (EqualsIgnoreCase k name); [by eexists | by apply IH].
  - intros [[=]|Hq]%elem_of_cons. by apply IH.
Qed.

Lemma userParamsLoop_lookup (query : QueryString) (keys : list (option string))
    (properties : gmap string string) (name : string) :
  userParamsLoop query keys properties !! name =
    if isUserParam (Some name) && bool_decide (Some name ∈ keys)
    then match Item query name with
         | Some v => Some v
         | None => properties !! name
         end
    else properties !! name.
Proof.
  revert properties.
  induction keys as [|key keys IH]; intros properties; cbn [userParamsLoop].
  { rewrite bool_decide_eq_false_2 by apply not_elem_of_nil.
    by rewrite andb_false_r. }
  rewrite IH. clear IH.
  destruct (decide (key = Some name)) as [->|Hne].
  - rewrite (bool_decide_eq_true_2 (Some name ∈ Some name :: keys))
      by apply list_elem_of_here.
    rewrite andb_true_r.
    destruct (isUserParam (Some name)) eqn:Huser; [|done].
    destruct (Item query name) as [v|]; [|by destruct (bool_decide _)].
    rewrite lookup_insert_eq. by destruct (bool_decide _).
  - assert (bool_decide (Some name ∈ key :: keys) = bool_decide (Some name ∈ keys))
      as ->.
    { apply bool_decide_ext. rewrite elem_of_cons.
      split; [intros [?|?]; [congruence|done] | by right]. }
    assert (match key with
            | Some k =>
                if isUserParam key
                then match Item query k with
                     | Some v => <[k:=v]> properties
                     | None => properties
                     end
                else properties
            | None => properties
            end !! name = properties !! name) as ->; [|done].
    destruct key as [k|]; [|done].
    destruct (isUserParam (Some k)); [|done].
    destruct (Item query k); [|done].
    apply lookup_insert_ne. congruence.
Qed.

(** The overlay, key by key. *)
Lemma userParams_lookup (query : QueryString) (properties : gmap string string)
    (name : string) :
  userParams query properties !! name =
    match Item query name with
    | Some v =>
        if bool_decide (Some name ∈ AllKeys query) && isUserParam (Some name)
        then Some v else properties !! name
    | None => properties !! name
    end.
Proof.
  unfold userParams. rewrite userParamsLoop_lookup.
  destruct (isUserParam (Some name)), (bool_decide (Some name ∈ AllKeys query)),
    (Item query name); done.
Qed.

Lemma mustBeCached_loop_true (keys : list (option string)) :
  mustBeCached_loop keys = true ↔ ∀ key, key ∈ keys → isUserParam key = false.
Proof.
  induction keys as [|key keys IH]; simpl.
  - split; [|done]. intros _ key Hkey. by apply elem_of_nil in Hkey.
  - destruct (isUserParam key) eqn:Hkey.
    + split; [done|]. intros Hall.
      specialize (Hall key (list_elem_of_here _ _)). congruence.
    + rewrite IH. split.
      * intros Hall k [->|Hk]%elem_of_cons; auto.
      * intros Hall k Hk. apply Hall. by apply list_elem_of_further.
Qed.

Lemma userParamsLoop_cached (query : QueryString) (keys : list (option string))
    (properties : gmap string string) :
  mustBeCached_loop keys = true → userParamsLoop query keys properties = properties.
Proof.
  revert properties. induction keys as [|key keys IH]; intros properties; simpl; [done|].
  destruct (isUserParam key) eqn:Hkey; [done|].
  intros Hrest. rewrite IH by done. by destruct key.
Qed.

(** *** Font ranges *)

Lemma resolvedRanges_cons (config : gmap string string) (name : string)
    (rest : list string) :
  resolvedRanges config (name :: rest) =
    match config !! Trim name with
    | Some v => v :: resolvedRanges config rest
    | None => resolvedRanges config rest
    end.
Proof. unfold resolvedRanges. simpl. by destruct (config !! Trim name). Qed.

Lemma fontRangesLoop_other (config : gmap string string) (carry : nat)
    (fontRanges : list string) (i : nat) (fonts : gmap string string)
    (key : string) :
  (∀ j, j < length (resolvedRanges config fontRanges) →
        key ≠ fontKey (carry + (i + j))) →
  fontRangesLoop config carry fontRanges i fonts !! key = fonts !! key.
Proof.
  revert i fonts.
  induction fontRanges as [|name rest IH]; intros i fonts Hkey; [done|].
  rewrite resolvedRanges_cons in Hkey. cbn [fontRangesLoop].
  destruct (config !! Trim name) as [v|].
  - rewrite IH.
    + apply lookup_insert_ne. intros Heq.
      apply (Hkey 0); [simpl; lia|]. by rewrite Nat.add_0_r.
    + intros j Hj. replace (S i + j) with (i + S j) by lia.
      apply Hkey. simpl. lia.
  - by apply IH.
Qed.

Lemma fontRangesLoop_resolved (config : gmap string string) (carry : nat)
    (fontRanges : list string) (i : nat) (fonts : gmap string string)
    (j : nat) (v : string) :
  resolvedRanges config fontRanges !! j = Some v →
  fontRangesLoop config carry fontRanges i fonts !! fontKey (carry + (i + j))
    = Some (Trim v).
Proof.
  revert i j fonts.
  induction fontRanges as [|name rest IH]; intros i j fonts; [done|].
  rewrite resolvedRanges_cons. cbn [fontRangesLoop].
  destruct (config !! Trim name) as [v0|].
  - destruct j as [|j]; simpl.
    + intros [= ->]. rewrite fontRangesLoop_other.
      * rewrite Nat.add_0_r. apply lookup_insert_eq.
      * intros j _ Heq. apply fontKey_inj in Heq. lia.
    + intros Hj. replace (i + S j) with (S i + j) by lia. by apply IH.
  - apply IH.
Qed.

(** *** Retrocompatibility *)

Lemma retrocompatibility_inherits (config : gmap string string)
    (colorKey symbolcolor : string) :
  colorKey = "wirisimagenumbercolor" ∨ colorKey = "wirisimageidentcolor" →
  config !! "wirisimagesymbolcolor" = Some symbolcolor →
  config !! colorKey = None →
  retrocompatibility config !! colorKey = Some symbolcolor.
Proof.
  unfold retrocompatibility. intros [-> | ->] Hsymbol Hcolor.
  - rewrite Hcolor, Hsymbol.
    rewrite (lookup_insert_ne _ "wirisimagenumbercolor" "wirisimageidentcolor")
      by done.
    rewrite (lookup_insert_ne _ "wirisimagenumbercolor" "wirisimagesymbolcolor")
      by done.
    rewrite Hsymbol.
    destruct (config !! "wirisimageidentcolor").
    + apply lookup_insert_eq.
    + rewrite lookup_insert_ne by done. apply lookup_insert_eq.
  - destruct (config !! "wirisimagenumbercolor") as [n|].
    + rewrite Hcolor, Hsymbol. apply lookup_insert_eq.
    + rewrite Hsymbol.
      rewrite (lookup_insert_ne _ "wirisimagenumbercolor" "wirisimageidentcolor")
        by done.
      rewrite (lookup_insert_ne _ "wirisimagenumbercolor" "wirisimagesymbolcolor")
        by done.
      rewrite Hcolor, Hsymbol. apply lookup_insert_eq.
Qed.

(** *** The keys of [fonts] *)

Lemma fontKeys_empty : fontKeys ∅.
Proof. intros key [v Hv]. by rewrite lookup_empty in Hv. Qed.

Lemma fontKeys_insert (fonts : gmap string string) (key value : string) :
  StartsWithFont key = true → fontKeys fonts → fontKeys (<[key := value]> fonts).
Proof.
  intros Hkey Hfonts k. destruct (decide (key = k)) as [<-|Hne]; [done|].
  rewrite lookup_insert_ne by done. apply Hfonts.
Qed.

Lemma fontsLoop_fontKeys (lines : list string) (j : nat) (fonts : gmap string string) :
  fontKeys fonts → fontKeys (fontsLoop lines j fonts).
Proof.
  revert j fonts. induction lines as [|l lines IH]; intros j fonts Hfonts; simpl; [done|].
  destruct (0 <? String.length (Trim l))%nat; [|by apply IH].
  apply IH, fontKeys_insert; [apply StartsWithFont_fontKey | done].
Qed.

Lemma iniLoop_fontKeys (entries : list (string * string))
    (config fonts config' fonts' : gmap string string) :
  iniLoop entries config fonts = inr (config', fonts') →
  fontKeys fonts → fontKeys fonts'.
Proof.
  revert config fonts.
  induction entries as [|[key v] entries IH]; intros config fonts; simpl.
  - by intros [= _ <-].
  - destruct (String.eqb key "mml"); [apply IH|].
    destruct (StartsWithFont key) eqn:Hkey.
    + intros Hloop Hfonts. apply (IH _ _ Hloop). by apply fontKeys_insert.
    + destruct (imageConfigProperties !! key); [apply IH | done].
Qed.

Lemma fontRangesLoop_fontKeys (config : gmap string string) (carry : nat)
    (fontRanges : list string) (i : nat) (fonts : gmap string string) :
  fontKeys fonts → fontKeys (fontRangesLoop config carry fontRanges i fonts).
Proof.
  revert i fonts.
  induction fontRanges as [|name rest IH]; intros i fonts Hfonts; simpl; [done|].
  destruct (config !! Trim name); [|by apply IH].
  apply IH, fontKeys_insert; [apply StartsWithFont_fontKey | done].
Qed.

Lemma parseLines_fontKeys (config : gmap string string) (content : string)
    (configAndFonts : ConfigAndFonts) :
  parseLines config content = inr configAndFonts → fontKeys (fonts configAndFonts).
Proof.
  unfold parseLines. destruct (Split _ content) as [|first lines].
  - intros [= <-]. apply fontKeys_empty.
  - destruct (attributesLoop _ _ _) as [e|[config' lines']]; [done|].
    intros [= <-]. apply fontsLoop_fontKeys, fontKeys_empty.
Qed.

Lemma fromIniEntries_fontKeys (config : gmap string string)
    (formulaConfig : list (string * string)) (configAndFonts : ConfigAndFonts) :
  fromIniEntries config formulaConfig = inr configAndFonts →
  fontKeys (fonts configAndFonts).
Proof.
  unfold fromIniEntries.
  destruct (iniLoop _ _ _) as [e|[config' fonts']] eqn:Hloop; [done|].
  destruct (entryOf _ _); [|done].
  intros [= <-]. apply (iniLoop_fontKeys _ _ _ _ _ Hloop), fontKeys_empty.
Qed.

Lemma finalFonts_fontKeys (configAndFonts : ConfigAndFonts) :
  fontKeys (fonts configAndFonts) → fontKeys (finalFonts configAndFonts).
Proof.
  unfold finalFonts, addFontRanges. intros Hfonts.
  destruct (_ !! "wirisimagefontranges"); [|done].
  by apply fontRangesLoop_fontKeys.
Qed.

End parameters.

Section parameter_claims.

Context `{Libwiris} `{FileSystem}.

Lemma retrocompatibility_other (config : gmap string string) (key : string) :
  key ≠ "wirisimagenumbercolor" → key ≠ "wirisimageidentcolor" →
  retrocompatibility config !! key = config !! key.
Proof.
  intros Hnumber Hident. unfold retrocompatibility.
  destruct (config !! "wirisimagenumbercolor"), (config !! "wirisimagesymbolcolor");
    repeat match goal with
           | |- context [match ?x with _ => _ end] => destruct x
           end;
    rewrite ?lookup_insert_ne by done; done.
Qed.

(** C5. When the configuration of a loaded descriptor has a symbol colour
    but no number colour (respectively identifier colour), the
    configuration [createImage] goes on with has that colour equal to the
    symbol colour, and the render parameters carry, under the server
    parameter of that colour, the (trimmed) symbol colour.  The descriptor
    may come from either reader: the rule sits in [createImage], after
    both.  The parameter is the computed one: it is read either without
    user params, or when the query does not name it. *)
Theorem symbolcolor_inherited (request : Request) (config0 : gmap string string)
    (content : string) (entries : list (string * string))
    (configAndFonts : ConfigAndFonts) (useParams : bool)
    (colorKey serverParam symbolcolor : string) :
  parseLines config0 content = inr configAndFonts
    ∨ fromIniEntries config0 entries = inr configAndFonts →
  colorKey = "wirisimagenumbercolor" ∨ colorKey = "wirisimageidentcolor" →
  config configAndFonts !! "wirisimagesymbolcolor" = Some symbolcolor →
  config configAndFonts !! colorKey = None →
  imageConfigProperties !! serverParam = Some colorKey →
  StartsWithFont serverParam = false →
  useParams = false ∨ Item (Query request) serverParam = None →
  finalConfig configAndFonts !! colorKey = Some symbolcolor
  ∧ imageProperties request configAndFonts useParams !! serverParam
      = Some (Trim symbolcolor).
Proof.
  intros Hloaded Hcolor Hsymbol Habsent Hparam Hfont Hquery.
  assert (finalConfig configAndFonts !! colorKey = Some symbolcolor) as Hfinal.
  { by apply retrocompatibility_inherits. }
  split; [done|].
  assert (computedProperties configAndFonts !! serverParam = Some (Trim symbolcolor))
    as Hcomputed.
  { unfold computedProperties. rewrite fontsToParameters_lookup.
    assert (fontKeys (finalFonts configAndFonts)) as Hkeys.
    { apply finalFonts_fontKeys.
      destruct Hloaded as [Hlines|Hini];
        eauto using parseLines_fontKeys, fromIniEntries_fontKeys. }
    destruct (finalFonts configAndFonts !! serverParam) as [v|] eqn:Hv.
    { rewrite Hkeys in Hfont by eauto. done. }
    by rewrite configToParameters_lookup, Hparam, Hfinal. }
  unfold imageProperties. destruct Hquery as [-> | Hitem]; [done|].
  destruct useParams; [|done].
  by rewrite userParams_lookup, Hitem.
Qed.

(** C6. When the configuration declares font ranges, the [j]-th range name
    that resolves (counting only those that do) becomes the font of index
    [fonts.Count + j], with the trimmed value the name resolves to, and
    that entry reaches the render parameters; every other key of [fonts]
    keeps the value it had. *)
Theorem fontranges_continue_numbering (configAndFonts : ConfigAndFonts)
    (ranges : string) (j : nat) (v : string) :
  let resolved := resolvedRanges (finalConfig configAndFonts) (Split "," ranges) in
  let carry := size (fonts configAndFonts) in
  config configAndFonts !! "wirisimagefontranges" = Some ranges →
  resolved !! j = Some v →
  finalFonts configAndFonts !! fontKey (carry + j) = Some (Trim v)
  ∧ computedProperties configAndFonts !! fontKey (carry + j) = Some (Trim v)
  ∧ ∀ key, (∀ j', j' < length resolved → key ≠ fontKey (carry + j')) →
           finalFonts configAndFonts !! key = fonts configAndFonts !! key.
Proof.
  intros resolved carry Hranges Hj.
  assert (finalConfig configAndFonts !! "wirisimagefontranges" = Some ranges)
    as Hfinal.
  { unfold finalConfig. by rewrite retrocompatibility_other. }
  assert (finalFonts configAndFonts !! fontKey (carry + j) = Some (Trim v)) as Hfont.
  { unfold finalFonts, addFontRanges. rewrite Hfinal.
    apply (fontRangesLoop_resolved _ _ _ 0 _ j v Hj). }
  split; [done|]. split.
  - unfold computedProperties. by rewrite fontsToParameters_lookup, Hfont.
  - intros key Hkey. unfold finalFonts, addFontRanges. rewrite Hfinal.
    by apply fontRangesLoop_other.
Qed.

(** C7. Without [useParams] the parameters are the computed ones, whatever
    the query.  With [useParams], a parameter named in the query is the
    query's value exactly when its name is an attribute name or starts
    with ["font"], overriding the computed value; every other parameter is
    the computed one.  A parameter is named in the query when its name
    is a key of [AllKeys], in the spelling of the query, since the value
    is stored under the key as the query has it; such a key always has a
    value. *)
Theorem caller_overrides (request : Request) (configAndFonts : ConfigAndFonts) :
  imageProperties request configAndFonts false = computedProperties configAndFonts
  ∧ (∀ name,
      imageProperties request configAndFonts true !! name =
        match Item (Query request) name with
        | Some v =>
            if bool_decide (Some name ∈ AllKeys (Query request))
               && (inArray name xmlFileAttributes || StartsWithFont name)
            then Some v
            else computedProperties configAndFonts !! name
        | None => computedProperties configAndFonts !! name
        end)
  ∧ (∀ name, Some name ∈ AllKeys (Query request) →
             is_Some (Item (Query request) name)).
Proof.
  split; [done|]. split.
  - intros name. unfold imageProperties. apply userParams_lookup.
  - intros name. apply Item_is_Some.
Qed.

End parameter_claims.

(** ** Running the page *)

Section runs.

Context `{Libwiris} `{FileSystem}.

Lemma bind_run {A B} (m : M A) (k : A → M B) (w : World) :
  bind m k w = match m w with
               | (inr a, w') => k a w'
               | (inl e, w') => (inl e, w')
               end.
Proof. reflexivity. Qed.

Lemma File_Exists_run (path : string) (w : World) :
  File_Exists path w
    = (inr (bool_decide (is_Some (files w !! path))), logged (Probe path) w).
Proof. reflexivity. Qed.

Lemma ReadAllBytes_run (path : string) (w : World) :
  ReadAllBytes path w
    = (match files w !! path with
       | Some bytes => inr bytes
       | None => inl (OpenFailure path)
       end, logged (Read path) w).
Proof.
  unfold ReadAllBytes. rewrite bind_run. unfold logAccess. simpl.
  by destruct (files w !! path).
Qed.

Lemma ReadToEnd_run (path : string) (w : World) :
  ReadToEnd path w
    = (match files w !! path with
       | Some bytes => inr (string_of_list_byte bytes)
       | None => inl (OpenFailure path)
       end, logged (Read path) w).
Proof.
  unfold ReadToEnd. rewrite bind_run, ReadAllBytes_run.
  by destruct (files w !! path).
Qed.

Lemma loadConfigAndFonts_run (config : gmap string string)
    (formulaPath formulaPathExtension : string) (w : World) :
  loadConfigAndFonts config formulaPath formulaPathExtension w
    = (loadedFrom config formulaPath formulaPathExtension w,
       logged (Read (descriptorPath formulaPath formulaPathExtension)) w).
Proof.
  unfold loadedFrom, loadConfigAndFonts, descriptorPath.
  unfold getConfigurationAndFontsFromIni, getConfigurationAndFonts.
  destruct (String.eqb formulaPathExtension "ini");
    rewrite bind_run, ReadToEnd_run; by destruct (files w !! _).
Qed.

(** What a reader returns depends on the files only. *)
Lemma loadedFrom_files (config : gmap string string)
    (formulaPath formulaPathExtension : string) (w w' : World) :
  files w = files w' →
  loadedFrom config formulaPath formulaPathExtension w
    = loadedFrom config formulaPath formulaPathExtension w'.
Proof.
  intros Hfiles.
  unfold loadedFrom, loadConfigAndFonts.
  unfold getConfigurationAndFontsFromIni, getConfigurationAndFonts.
  destruct (String.eqb formulaPathExtension "ini");
    rewrite !bind_run, !ReadToEnd_run, Hfiles; by destruct (files w' !! _).
Qed.

Lemma createImage_run (request : Request) (config : gmap string string)
    (formulaPath formulaPathExtension : string) (useParams : bool) (w : World) :
  createImage request config formulaPath formulaPathExtension useParams w =
    let w1 := logged (Read (descriptorPath formulaPath formulaPathExtension)) w in
    match loadedFrom config formulaPath formulaPathExtension w with
    | inl e => (inl e, w1)
    | inr configAndFonts =>
        let url := getImageServiceURL (finalConfig configAndFonts) in
        let properties := imageProperties request configAndFonts useParams in
        (match getContents url properties (Referer request) with
         | Some stream => inr stream
         | None => inl WebException
         end, called (url, properties, Referer request) w1)
    end.
Proof.
  unfold createImage. rewrite bind_run, loadConfigAndFonts_run.
  destruct (loadedFrom _ _ _ _) as [e|configAndFonts]; [done|].
  unfold Libwiris_getContents. simpl. by destruct (getContents _ _ _).
Qed.

Lemma createImage_accesses (request : Request) (config : gmap string string)
    (formulaPath formulaPathExtension : string) (useParams : bool) (w : World) :
  ∃ rest,
    accesses (createImage request config formulaPath formulaPathExtension
                useParams w).2 = (accesses w ++ rest)%list.
Proof.
  rewrite createImage_run. cbv zeta.
  destruct (loadedFrom _ _ _ _); simpl; eauto.
Qed.

(** *** [saveImage] copies the whole stream *)

Lemma bufferLength_positive : 0 < bufferLength.
Proof. apply Nat.ltb_lt. by vm_compute. Qed.

Lemma stored_stored (path : string) (b1 b2 : list Byte.byte) (w : World) :
  stored path b2 (stored path b1 w) = stored path b2 w.
Proof. unfold stored. simpl. by rewrite insert_insert_eq. Qed.

Lemma copyLoop_run (fuel : nat) (imagePath : string)
    (stream written : list Byte.byte) (w : World) :
  length stream < fuel →
  files w !! imagePath = Some written →
  copyLoop fuel imagePath stream w = (inr tt, stored imagePath (written ++ stream) w).
Proof.
  revert stream written w.
  induction fuel as [|fuel IH]; intros stream written w Hfuel Hfile; [lia|].
  cbn [copyLoop]. pose proof bufferLength_positive as Hpos.
  destruct (0 <? length (take bufferLength stream))%nat eqn:Hread.
  - apply Nat.ltb_lt in Hread. rewrite length_take in Hread.
    rewrite bind_run. unfold Writer_Write, setFile. rewrite Hfile. simpl.
    rewrite (IH _ (written ++ take bufferLength stream)%list).
    + rewrite stored_stored, <- app_assoc, take_drop. done.
    + rewrite length_drop. lia.
    + simpl. apply lookup_insert_eq.
  - apply Nat.ltb_ge in Hread. rewrite length_take in Hread.
    assert (stream = []) as -> by (destruct stream; [done | simpl in Hread; lia]).
    rewrite app_nil_r. unfold ret, stored. destruct w as [fs ro acc rs].
    simpl in *. by rewrite insert_id.
Qed.

Lemma saveImage_run (imagePath : string) (stream : list Byte.byte) (w : World) :
  saveImage imagePath stream w =
    if bool_decide (imagePath ∈ unwritable w)
    then (inl (IOException imagePath), logged (Create imagePath) w)
    else (inr tt, stored imagePath stream (logged (Create imagePath) w)).
Proof.
  unfold saveImage. rewrite bind_run. unfold FileStream_Create.
  rewrite bind_run. unfold logAccess. cbv beta iota.
  change (unwritable (logged (Create imagePath) w)) with (unwritable w).
  destruct (bool_decide (imagePath ∈ unwritable w)); [done|].
  unfold setFile.
  rewrite (copyLoop_run _ _ _ []); [by rewrite stored_stored | lia |].
  apply lookup_insert_eq.
Qed.

(** *** [Page_Load] on a [formula] request *)

Lemma Page_Load_formula (config : gmap string string) (request : Request)
    (id formula : string) (w : World) :
  Item (Query request) "formula" = Some id →
  GetFileNameWithoutExtension id = Some formula →
  Page_Load config request w =
    let formulaPath := formulaPathOf config formula in
    let extension := extensionOf formulaPath w in
    let w1 := logged (Probe (formulaPath +:+ ".ini")) w in
    if mustBeCached request
    then
      let imagePath := imagePathOf config formula in
      let w2 := logged (Probe imagePath) w1 in
      match files w !! imagePath with
      | Some bytes => (inr (File "image/png" bytes), logged (Read imagePath) w2)
      | None =>
          match createImage request config formulaPath extension false w2 with
          | (inl e, w3) => (inl e, w3)
          | (inr stream, w3) =>
              if bool_decide (imagePath ∈ unwritable w3)
              then (inl (IOException imagePath), logged (Create imagePath) w3)
              else (inr (File "image/png" stream),
                    logged (Read imagePath)
                      (stored imagePath stream (logged (Create imagePath) w3)))
          end
      end
    else
      match createImage request config formulaPath extension true w1 with
      | (inl e, w') => (inl e, w')
      | (inr stream, w') => (inr (File "image/png" stream), w')
      end.
Proof.
  intros Hid Hformula. unfold Page_Load. rewrite Hid, Hformula.
  fold (formulaPathOf config formula). fold (imagePathOf config formula).
  rewrite bind_run, File_Exists_run. cbv zeta.
  fold (extensionOf (formulaPathOf config formula) w).
  destruct (mustBeCached request).
  - rewrite bind_run, File_Exists_run.
    change (files (logged _ w)) with (files w).
    destruct (files w !! imagePathOf config formula) as [bytes|] eqn:Himage.
    + rewrite bool_decide_eq_true_2 by eauto.
      rewrite bind_run. unfold ret at 1. cbv beta iota.
      unfold Response_WriteFile. rewrite bind_run, ReadAllBytes_run.
      change (files (logged _ (logged _ w))) with (files w).
      by rewrite Himage.
    + rewrite bool_decide_eq_false_2 by (by intros [? ?]).
      rewrite bind_run. unfold createAndSaveImage. rewrite bind_run.
      destruct (createImage _ _ _ _ _ _) as [[e|stream] w3]; [done|].
      rewrite saveImage_run.
      destruct (bool_decide (_ ∈ unwritable w3)); [done|].
      unfold Response_WriteFile. rewrite bind_run, ReadAllBytes_run.
      unfold stored at 1. cbn [files]. by rewrite lookup_insert_eq.
  - rewrite bind_run. by destruct (createImage _ _ _ _ _ _) as [[e|stream] w'].
Qed.

(** *** [Page_Load] on an [mml] request *)

Lemma Page_Load_mml (config : gmap string string) (request : Request)
    (mml : string) (w : World) :
  Item (Query request) "formula" = None →
  Item (Query request) "mml" = Some mml →
  Page_Load config request w =
    let url := getImageServiceURL config in
    let properties : gmap string string := {[ "mml" := mml ]} in
    let w1 := called (url, properties, Referer request) w in
    match getContents url properties (Referer request) with
    | None => (inl WebException, w1)
    | Some stream =>
        if bool_decide (tempPathOf config ∈ unwritable w)
        then (inl (IOException (tempPathOf config)), logged (Create (tempPathOf config)) w1)
        else (inr (File "image/png" stream),
              logged (Read (tempPathOf config))
                (stored (tempPathOf config) stream
                   (logged (Create (tempPathOf config)) w1)))
    end.
Proof.
  intros Hformula Hmml. unfold Page_Load. rewrite Hformula, Hmml.
  fold (tempPathOf config). rewrite bind_run. unfold Libwiris_getContents.
  cbv zeta. destruct (getContents _ _ _) as [stream|]; [|done].
  rewrite bind_run, saveImage_run.
  change (unwritable (called _ w)) with (unwritable w).
  destruct (bool_decide (_ ∈ unwritable w)); [done|].
  unfold Response_WriteFile. rewrite bind_run, ReadAllBytes_run.
  unfold stored at 1. cbn [files]. by rewrite lookup_insert_eq.
Qed.

(** *** Paths *)

Lemma app_string_assoc (s t u : string) : (s +:+ t) +:+ u = s +:+ t +:+ u.
Proof.
  induction s as [|c s IH]; [done|].
  rewrite !app_string_cons. by rewrite IH.
Qed.

Lemma imagePathOf_png (config : gmap string string) (formula : string) :
  imagePathOf config formula = (cacheDirectory config +:+ "/" +:+ formula) +:+ ".png".
Proof. unfold imagePathOf. by rewrite !app_string_assoc. Qed.

(** A descriptor is never the cached image: the extensions differ. *)
Lemma descriptorPath_not_image (config : gmap string string)
    (formulaPath formulaPathExtension formula : string) :
  descriptorPath formulaPath formulaPathExtension ≠ imagePathOf config formula.
Proof.
  rewrite imagePathOf_png. unfold descriptorPath.
  destruct (String.eqb formulaPathExtension "ini");
    intros [_ [=]]%app_string_inv_tail; done.
Qed.

Lemma ini_not_image (config : gmap string string) (formulaPath formula : string) :
  formulaPath +:+ ".ini" ≠ imagePathOf config formula.
Proof. apply (descriptorPath_not_image config formulaPath "ini"). Qed.

(** Only the identifier [temp] is cached in the slot of the [mml] requests. *)
Lemma imagePathOf_temp (config : gmap string string) (formula : string) :
  imagePathOf config formula = tempPathOf config → formula = "temp".
Proof.
  unfold imagePathOf, tempPathOf. intros Heq.
  apply (inj (String.app (cacheDirectory config))) in Heq.
  apply (inj (String.app "/") _ "temp.png") in Heq.
  by apply (app_string_inv_tail formula "temp" ".png" ".png") in Heq as [-> _].
Qed.

Lemma ToUpper_app (s t : string) : ToUpper (s +:+ t) = ToUpper s +:+ ToUpper t.
Proof.
  induction s as [|c s IH]; [done|].
  rewrite app_string_cons. simpl. by rewrite IH, app_string_cons.
Qed.

(** Also for a file system that ignores case, the slot of the [mml]
    requests is the image of the stem [temp] only, in whatever case. *)
Lemma imagePathOf_temp_ignoring_case (config : gmap string string) (formula : string) :
  EqualsIgnoreCase (imagePathOf config formula) (tempPathOf config) = true →
  EqualsIgnoreCase formula "temp" = true.
Proof.
  unfold EqualsIgnoreCase, imagePathOf, tempPathOf.
  rewrite !String.eqb_eq, !ToUpper_app. intros Heq.
  apply (inj (String.app (ToUpper (cacheDirectory config)))) in Heq.
  assert (ToUpper "/temp.png" = ToUpper "/" +:+ ToUpper "temp" +:+ ToUpper ".png")
    as Htemp by (vm_compute; reflexivity).
  rewrite Htemp in Heq.
  apply (inj (String.app (ToUpper "/"))) in Heq.
  by apply (app_string_inv_tail _ _ (ToUpper ".png") (ToUpper ".png")) in Heq as [-> _].
Qed.

End runs.

(** ** The cache *)

Section page_claims.

Context `{Libwiris} `{FileSystem}.

(** A cacheable request whose image is in the cache. *)
Lemma Page_Load_hit (config : gmap string string) (request : Request)
    (id formula : string) (bytes : list Byte.byte) (w : World) :
  Item (Query request) "formula" = Some id →
  GetFileNameWithoutExtension id = Some formula →
  mustBeCached request = true →
  files w !! imagePathOf config formula = Some bytes →
  Page_Load config request w =
    (inr (File "image/png" bytes),
     logged (Read (imagePathOf config formula))
       (logged (Probe (imagePathOf config formula))
          (logged (Probe (formulaPathOf config formula +:+ ".ini")) w))).
Proof.
  intros Hid Hformula Hcached Himage.
  rewrite (Page_Load_formula _ _ _ _ _ Hid Hformula), Hcached. cbv zeta.
  by rewrite Himage.
Qed.

(** A cacheable request whose image is not in the cache, up to the moment
    the image is to be saved. *)
Lemma Page_Load_miss (config : gmap string string) (request : Request)
    (id formula : string) (configAndFonts : ConfigAndFonts)
    (stream : list Byte.byte) (w : World) :
  let formulaPath := formulaPathOf config formula in
  let imagePath := imagePathOf config formula in
  let url := getImageServiceURL (finalConfig configAndFonts) in
  let w3 :=
    called (url, computedProperties configAndFonts, Referer request)
      (logged (Read (descriptorPath formulaPath (extensionOf formulaPath w)))
         (logged (Probe imagePath) (logged (Probe (formulaPath +:+ ".ini")) w))) in
  Item (Query request) "formula" = Some id →
  GetFileNameWithoutExtension id = Some formula →
  mustBeCached request = true →
  files w !! imagePath = None →
  loadedFrom config formulaPath (extensionOf formulaPath w) w = inr configAndFonts →
  getContents url (computedProperties configAndFonts) (Referer request) = Some stream →
  Page_Load config request w =
    if bool_decide (imagePath ∈ unwritable w)
    then (inl (IOException imagePath), logged (Create imagePath) w3)
    else (inr (File "image/png" stream),
          logged (Read imagePath) (stored imagePath stream (logged (Create imagePath) w3))).
Proof.
  intros formulaPath imagePath url w3 Hid Hformula Hcached Himage Hloaded Hrender.
  rewrite (Page_Load_formula _ _ _ _ _ Hid Hformula), Hcached. cbv zeta.
  fold formulaPath imagePath. rewrite Himage, createImage_run. cbv zeta.
  rewrite (loadedFrom_files _ _ _ _ w) by done. rewrite Hloaded.
  unfold imageProperties. fold url. rewrite Hrender. done.
Qed.

(** C1. A cacheable request for the stem [formula]: when
    [cacheDir/formula.png] exists its bytes are the response, and neither
    the files nor the renderer's log change; when it does not exist, the
    descriptor loads, the renderer answers and the file can be created,
    the renderer is called once, its bytes are stored at
    [cacheDir/formula.png] and served, and the same request made again is
    served the same bytes with no further call: one call after two
    requests. *)
Theorem cache_render_once (config : gmap string string) (request : Request)
    (id formula : string) (w : World) :
  Item (Query request) "formula" = Some id →
  GetFileNameWithoutExtension id = Some formula →
  mustBeCached request = true →
  let formulaPath := formulaPathOf config formula in
  let imagePath := imagePathOf config formula in
  (∀ bytes,
     files w !! imagePath = Some bytes →
     ∃ w', Page_Load config request w = (inr (File "image/png" bytes), w')
           ∧ files w' = files w ∧ renders w' = renders w)
  ∧ (∀ configAndFonts stream,
       files w !! imagePath = None →
       loadedFrom config formulaPath (extensionOf formulaPath w) w
         = inr configAndFonts →
       getContents (getImageServiceURL (finalConfig configAndFonts))
         (computedProperties configAndFonts) (Referer request) = Some stream →
       imagePath ∉ unwritable w →
       let call := (getImageServiceURL (finalConfig configAndFonts),
                    computedProperties configAndFonts, Referer request) in
       ∃ w' w'' : World,
         Page_Load config request w = (inr (File "image/png" stream), w')
         ∧ files w' = <[imagePath := stream]> (files w)
         ∧ renders w' = (renders w ++ [call])%list
         ∧ Page_Load config request w' = (inr (File "image/png" stream), w'')
         ∧ renders w'' = (renders w ++ [call])%list).
Proof.
  intros Hid Hformula Hcached formulaPath imagePath. split.
  - intros bytes Himage. eexists.
    split; [by apply (Page_Load_hit _ _ id) | done].
  - intros configAndFonts stream Himage Hloaded Hrender Hwritable call.
    pose proof (Page_Load_miss config request id formula configAndFonts stream w
                  Hid Hformula Hcached Himage Hloaded Hrender) as Hfirst.
    rewrite bool_decide_eq_false_2 in Hfirst by done.
    eexists _, _. split; [exact Hfirst|].
    split; [reflexivity|]. split; [reflexivity|].
    split.
    + apply (Page_Load_hit _ _ id); try done.
      apply lookup_insert_eq.
    + reflexivity.
Qed.


Lemma mustBeCached_override (request : Request) (key : string) :
  Some key ∈ AllKeys (Query request) →
  inArray key xmlFileAttributes || StartsWithFont key = true →
  mustBeCached request = false.
Proof.
  intros Hkey Huser. destruct (mustBeCached request) eqn:Hcached; [|done].
  pose proof (proj1 (mustBeCached_loop_true _) Hcached _ Hkey) as Hnone.
  simpl in Hnone. congruence.
Qed.

(** C2. A request for the stem [formula] whose query has a key that is an
    attribute name or starts with ["font"] is not cacheable; it leaves
    every file as it was, touches no path equal to
    [cacheDir/formula.png], and, once the descriptor is loaded, calls the
    renderer exactly once, with the user params applied, and answers with
    what the renderer returns. *)
Theorem uncached_request (config : gmap string string) (request : Request)
    (id formula key : string) (w : World) :
  Item (Query request) "formula" = Some id →
  GetFileNameWithoutExtension id = Some formula →
  Some key ∈ AllKeys (Query request) →
  inArray key xmlFileAttributes || StartsWithFont key = true →
  let formulaPath := formulaPathOf config formula in
  let run := Page_Load config request w in
  mustBeCached request = false
  ∧ files run.2 = files w
  ∧ (∃ new, accesses run.2 = (accesses w ++ new)%list
            ∧ ∀ a, a ∈ new → accessPath a ≠ imagePathOf config formula)
  ∧ (∀ configAndFonts,
       loadedFrom config formulaPath (extensionOf formulaPath w) w
         = inr configAndFonts →
       let url := getImageServiceURL (finalConfig configAndFonts) in
       let properties := imageProperties request configAndFonts true in
       renders run.2 = (renders w ++ [(url, properties, Referer request)])%list
       ∧ run.1 = match getContents url properties (Referer request) with
                 | Some stream => inr (File "image/png" stream)
                 | None => inl WebException
                 end).
Proof.
  intros Hid Hformula Hkey Huser formulaPath run. subst run.
  pose proof (mustBeCached_override _ _ Hkey Huser) as Hcached.
  split; [done|].
  rewrite (Page_Load_formula _ _ _ _ _ Hid Hformula), Hcached. cbv zeta.
  fold formulaPath. rewrite createImage_run. cbv zeta.
  rewrite (loadedFrom_files _ _ _ _ w) by done.
  assert (∀ a, a ∈ [Probe (formulaPath +:+ ".ini");
                    Read (descriptorPath formulaPath (extensionOf formulaPath w))] →
               accessPath a ≠ imagePathOf config formula) as Hpaths.
  { intros a [->|[->|[]%elem_of_nil]%elem_of_cons]%elem_of_cons; simpl.
    - apply ini_not_image.
    - apply descriptorPath_not_image. }
  destruct (loadedFrom _ _ _ w) as [e|configAndFonts].
  - split; [done|]. split; [|done].
    eexists. split; [|exact Hpaths]. simpl. by rewrite <- app_assoc.
  - destruct (getContents _ _ _) as [stream|] eqn:Hrender.
    all: split; [done|]; split;
      [ eexists; split; [|exact Hpaths]; simpl; by rewrite <- app_assoc
      | intros ? [= <-]; cbn [fst snd]; by rewrite Hrender ].
Qed.

(** C3, as the page has it.  An identifier is turned down before any file
    access only when it holds a character that is illegal in a path.  Any
    other identifier, traversal segments or not, empty or not, is cut
    down to its stem, which holds no ['/'], ['\'] or [':'], and the page
    goes on: its first file access probes [formulaDir/stem.ini]. *)
Theorem identifier_reduced_to_stem (config : gmap string string)
    (request : Request) (id : string) (w : World) :
  Item (Query request) "formula" = Some id →
  match GetFileNameWithoutExtension id with
  | None => Page_Load config request w = (inl ArgumentException, w)
  | Some formula =>
      existsChar IsSeparator formula = false
      ∧ ∃ rest, accesses (Page_Load config request w).2
                = (accesses w ++ Probe (formulaPathOf config formula +:+ ".ini") :: rest)%list
  end.
Proof.
  intros Hid.
  destruct (GetFileNameWithoutExtension id) as [formula|] eqn:Hformula.
  - split; [by apply (GetFileNameWithoutExtension_no_separator id)|].
    rewrite (Page_Load_formula _ _ _ _ _ Hid Hformula). cbv zeta.
    destruct (mustBeCached request).
    + destruct (files w !! _); [simpl; rewrite <- !app_assoc; eauto|].
      match goal with
      | |- context [createImage ?r ?c ?p ?e ?b ?w'] =>
          destruct (createImage_accesses r c p e b w') as [rest Hrest];
          destruct (createImage r c p e b w') as [[e'|stream] w3]
      end; simpl in Hrest; [|destruct (bool_decide _)]; simpl;
        rewrite Hrest, <- !app_assoc; simpl; eauto.
    + match goal with
      | |- context [createImage ?r ?c ?p ?e ?b ?w'] =>
          destruct (createImage_accesses r c p e b w') as [rest Hrest];
          destruct (createImage r c p e b w') as [[e'|stream] w3]
      end; simpl in Hrest; simpl; rewrite Hrest, <- !app_assoc; simpl; eauto.
  - unfold Page_Load. by rewrite Hid, Hformula.
Qed.

(** C9, as the page has it.  Nothing catches the failure to create the
    cache file: when the descriptor loads and the renderer answers but
    [cacheDir/formula.png] cannot be created, the request ends with the
    I/O exception, after the renderer was called, and the rendered bytes
    are neither stored nor served. *)
Theorem cache_write_failure_fails_request (config : gmap string string)
    (request : Request) (id formula : string) (configAndFonts : ConfigAndFonts)
    (stream : list Byte.byte) (w : World) :
  let formulaPath := formulaPathOf config formula in
  let imagePath := imagePathOf config formula in
  let url := getImageServiceURL (finalConfig configAndFonts) in
  Item (Query request) "formula" = Some id →
  GetFileNameWithoutExtension id = Some formula →
  mustBeCached request = true →
  files w !! imagePath = None →
  loadedFrom config formulaPath (extensionOf formulaPath w) w = inr configAndFonts →
  getContents url (computedProperties configAndFonts) (Referer request) = Some stream →
  imagePath ∈ unwritable w →
  let run := Page_Load config request w in
  run.1 = inl (IOException imagePath)
  ∧ files run.2 = files w
  ∧ renders run.2
      = (renders w ++ [(url, computedProperties configAndFonts, Referer request)])%list.
Proof.
  intros formulaPath imagePath url Hid Hformula Hcached Himage Hloaded Hrender
    Hlocked run. subst run.
  rewrite (Page_Load_miss config request id formula configAndFonts stream w
             Hid Hformula Hcached Himage Hloaded Hrender).
  fold imagePath. by rewrite bool_decide_eq_true_2.
Qed.

(** C8, as the page has it.  A request with [mml] and no [formula] (no
    key of the query is [formula] in any case) calls the renderer once,
    with the single parameter [mml]; every file it touches is the slot
    [cacheDir/temp.png], and no other file changes; that slot is the cache
    entry of the identifier [temp], and of no identifier whose stem
    differs from [temp] in more than case, so also where the file system
    ignores the case of names; and when the renderer answers and the slot
    can be created, the bytes are written to the slot, then read back
    from it and served. *)
Theorem mml_request_single_slot (config : gmap string string)
    (request : Request) (mml : string) (w : World) :
  Item (Query request) "formula" = None →
  Item (Query request) "mml" = Some mml →
  let tempPath := tempPathOf config in
  let url := getImageServiceURL config in
  let properties : gmap string string := {[ "mml" := mml ]} in
  let run := Page_Load config request w in
  renders run.2 = (renders w ++ [(url, properties, Referer request)])%list
  ∧ (∃ new, accesses run.2 = (accesses w ++ new)%list
            ∧ ∀ a, a ∈ new → accessPath a = tempPath)
  ∧ (∀ path, path ≠ tempPath → files run.2 !! path = files w !! path)
  ∧ imagePathOf config "temp" = tempPath
  ∧ (∀ formula, EqualsIgnoreCase formula "temp" = false →
                EqualsIgnoreCase (imagePathOf config formula) tempPath = false)
  ∧ (∀ stream,
       getContents url properties (Referer request) = Some stream →
       tempPath ∉ unwritable w →
       run.1 = inr (File "image/png" stream)
       ∧ files run.2 !! tempPath = Some stream
       ∧ accesses run.2 = (accesses w ++ [Create tempPath; Read tempPath])%list).
Proof.
  intros Hformula Hmml tempPath url properties run. subst run.
  rewrite (Page_Load_mml _ _ _ _ Hformula Hmml). cbv zeta.
  fold tempPath url properties.
  assert (imagePathOf config "temp" = tempPath
          ∧ ∀ formula, EqualsIgnoreCase formula "temp" = false →
              EqualsIgnoreCase (imagePathOf config formula) tempPath = false)
    as Hslot.
  { split; [done|]. intros formula Hne.
    destruct (EqualsIgnoreCase (imagePathOf config formula) tempPath) eqn:Heq;
      [|done].
    apply imagePathOf_temp_ignoring_case in Heq. congruence. }
  destruct Hslot as [Htemp Hslot].
  destruct (getContents url properties (Referer request)) as [stream|].
  - destruct (bool_decide (tempPath ∈ unwritable w)) eqn:Hlocked.
    + split; [done|]. split.
      { exists [Create tempPath]. split; [done|].
        by intros a ->%list_elem_of_singleton. }
      split; [done|]. split; [done|]. split; [done|].
      intros ? _ Hwritable. by apply bool_decide_eq_true in Hlocked.
    + split; [done|]. split.
      { exists [Create tempPath; Read tempPath]. split.
        - simpl. by rewrite <- app_assoc.
        - by intros a [->|[->|[]%elem_of_nil]%elem_of_cons]%elem_of_cons. }
      split.
      { intros path Hpath. simpl. by rewrite lookup_insert_ne. }
      split; [done|]. split; [done|].
      intros ? [= <-] _. split; [done|]. split.
      * simpl. apply lookup_insert_eq.
      * simpl. by rewrite <- app_assoc.
  - split; [done|]. split.
    { exists []. split; [by rewrite app_nil_r|]. by intros a []%elem_of_nil. }
    split; [done|]. split; [done|]. split; [done|]. done.
Qed.

Lemma createImage_cached (r1 r2 : Request) (config : gmap string string)
    (formulaPath formulaPathExtension : string) :
  Referer r1 = Referer r2 →
  createImage r1 config formulaPath formulaPathExtension false
    = createImage r2 config formulaPath formulaPathExtension false.
Proof. intros Hreferer. unfold createImage, imageProperties. by rewrite Hreferer. Qed.

(** C10. On a cacheable query the user-params loop changes nothing, so
    the render parameters are the computed ones whether or not the loop
    is run; and two cacheable requests for the same identifier, from the
    same referer, are handled alike whatever else their queries hold:
    same response, same world. *)
Theorem cacheable_request_ignores_query (config : gmap string string)
    (r1 r2 : Request) (id : string) (w : World) :
  mustBeCached r1 = true →
  mustBeCached r2 = true →
  Item (Query r1) "formula" = Some id →
  Item (Query r2) "formula" = Some id →
  Referer r1 = Referer r2 →
  (∀ properties, userParams (Query r1) properties = properties)
  ∧ (∀ configAndFonts b1 b2,
       imageProperties r1 configAndFonts b1 = imageProperties r2 configAndFonts b2)
  ∧ Page_Load config r1 w = Page_Load config r2 w.
Proof.
  intros Hcached1 Hcached2 Hid1 Hid2 Hreferer.
  assert (∀ r properties, mustBeCached r = true →
            userParams (Query r) properties = properties) as Hloop.
  { intros r properties Hr. by apply userParamsLoop_cached. }
  split; [by auto|]. split.
  - intros configAndFonts b1 b2. unfold imageProperties.
    rewrite !Hloop by done. by destruct b1, b2.
  - destruct (GetFileNameWithoutExtension id) as [formula|] eqn:Hformula.
    + rewrite (Page_Load_formula _ r1 _ _ _ Hid1 Hformula).
      rewrite (Page_Load_formula _ r2 _ _ _ Hid2 Hformula).
      rewrite Hcached1, Hcached2. cbv zeta.
      by rewrite (createImage_cached r1 r2).
    + unfold Page_Load. by rewrite Hid1, Hid2, Hformula.
Qed.

End page_claims.

(** ** The two formats *)

Section formats.

Context `{Libwiris} `{FileSystem}.

Lemma foldl_put (entries : list (string * string)) (table : gmap string string) :
  NoDup entries.*1 →
  foldl put table entries = list_to_map entries ∪ table.
Proof.
  revert table. induction entries as [|[k v] entries IH]; intros table Hkeys.
  - simpl. by rewrite (left_id_L ∅ (∪)).
  - apply NoDup_cons in Hkeys as [Hk Hkeys]. simpl. rewrite IH by done.
    unfold put. simpl. rewrite <- insert_union_l.
    symmetry. apply insert_union_r. by apply not_elem_of_list_to_map_1.
Qed.

Lemma attributesLoop_run (names values rest : list string)
    (config : gmap string string) :
  (length values ≤ length names)%nat →
  rest = [] ∨ length values = length names →
  Forall (λ name, is_Some (imageConfigProperties !! name))
         (take (length values) names) →
  attributesLoop (values ++ rest) names config
    = inr (foldl put config (configEntries names values), rest).
Proof.
  revert names config.
  induction values as [|v values IH]; intros names config Hlen Hrest Hnames.
  - destruct names as [|name names]; [by destruct rest|].
    destruct Hrest as [->|Hall]; done.
  - destruct names as [|name names]; [simpl in Hlen; lia|].
    simpl in Hlen, Hrest, Hnames.
    apply Forall_cons in Hnames as [[key Hkey] Hnames].
    unfold configEntries. simpl. rewrite Hkey. simpl.
    apply IH; [lia | | done]. destruct Hrest; [by left | right; lia].
Qed.

Lemma fontsLoop_run (values : list string) (j : nat) (fonts : gmap string string) :
  Forall (λ v, Trim v ≠ "") values →
  fontsLoop values j fonts = foldl put fonts (numbered j (Trim <$> values)).
Proof.
  revert j fonts.
  induction values as [|v values IH]; intros j fonts Hvalues; [done|].
  apply Forall_cons in Hvalues as [Hv Hvalues]. simpl.
  destruct (Trim v) as [|c line] eqn:Hline; [done|]. simpl.
  by rewrite IH.
Qed.

Lemma iniLoop_run (entries : list (string * string))
    (config fonts : gmap string string) :
  Forall (λ entry, entry.1 = "mml" ∨ StartsWithFont entry.1 = true
                   ∨ is_Some (imageConfigProperties !! entry.1)) entries →
  iniLoop entries config fonts
    = inr (foldl put config (iniConfigEntries entries),
           foldl put fonts (iniFontEntries entries)).
Proof.
  revert config fonts.
  induction entries as [|[key v] entries IH]; intros config fonts Hentries; [done|].
  apply Forall_cons in Hentries as [Hkey Hentries].
  unfold iniConfigEntries, iniFontEntries. simpl in *.
  destruct (String.eqb_spec key "mml") as [->|Hmml]; [by apply IH|].
  destruct (StartsWithFont key) eqn:Hfont; [by apply IH|].
  destruct Hkey as [?|[?|[configKey HconfigKey]]]; [done..|].
  rewrite HconfigKey. simpl. by apply IH.
Qed.

Lemma fontKey_not_mml (j : nat) : String.eqb (fontKey j) "mml" = false.
Proof. reflexivity. Qed.

Lemma numbered_keys (j : nat) (values : list string) (key : string) :
  key ∈ (numbered j values).*1 → ∃ i, j ≤ i ∧ key = fontKey i.
Proof.
  revert j. induction values as [|v values IH]; intros j; simpl.
  - by intros ?%elem_of_nil.
  - intros [->|Hkey]%elem_of_cons; [by exists j|].
    destruct (IH _ Hkey) as (i & Hi & ->). exists i. split; [lia|done].
Qed.

Lemma NoDup_numbered (j : nat) (values : list string) :
  NoDup (numbered j values).*1.
Proof.
  revert j. induction values as [|v values IH]; intros j; simpl.
  - constructor.
  - apply NoDup_cons. split; [|apply IH].
    intros (i & Hi & Heq%fontKey_inj)%numbered_keys. lia.
Qed.

Lemma iniFontEntries_cons (key v : string) (entries : list (string * string)) :
  iniFontEntries ((key, v) :: entries) =
    (if String.eqb key "mml" then []
     else if StartsWithFont key then [(key, Trim v)] else [])
    ++ iniFontEntries entries.
Proof.
  unfold iniFontEntries. simpl.
  by destruct (String.eqb key "mml"), (StartsWithFont key).
Qed.

Lemma iniConfigEntries_cons (key v : string) (entries : list (string * string)) :
  iniConfigEntries ((key, v) :: entries) =
    (if String.eqb key "mml" then []
     else if StartsWithFont key then []
     else match imageConfigProperties !! key with
          | Some configKey => [(configKey, Trim v)]
          | None => []
          end)
    ++ iniConfigEntries entries.
Proof.
  unfold iniConfigEntries. simpl.
  by destruct (String.eqb key "mml"), (StartsWithFont key),
    (imageConfigProperties !! key).
Qed.

Lemma configEntries_cons (name v : string) (names values : list string) :
  configEntries (name :: names) (v :: values) =
    match imageConfigProperties !! name with
    | Some key => [(key, Trim v)]
    | None => []
    end ++ configEntries names values.
Proof. unfold configEntries. simpl. by destruct (imageConfigProperties !! name). Qed.

Lemma iniFontEntries_numbered (j : nat) (values : list string) :
  iniFontEntries (numbered j values) = numbered j (Trim <$> values).
Proof.
  revert j. induction values as [|v values IH]; intros j; [done|].
  cbn [numbered]. rewrite iniFontEntries_cons.
  rewrite fontKey_not_mml, StartsWithFont_fontKey, IH. done.
Qed.

Lemma iniConfigEntries_numbered (j : nat) (values : list string) :
  iniConfigEntries (numbered j values) = [].
Proof.
  revert j. induction values as [|v values IH]; intros j; [done|].
  cbn [numbered]. rewrite iniConfigEntries_cons.
  rewrite fontKey_not_mml, StartsWithFont_fontKey, IH. done.
Qed.

Lemma iniEntries_zip (names values : list string) :
  Forall (λ name, name ≠ "mml" ∧ StartsWithFont name = false)
         (take (length values) names) →
  iniConfigEntries (zip names values) = configEntries names values
  ∧ iniFontEntries (zip names values) = [].
Proof.
  revert values. induction names as [|name names IH]; intros [|v values]; try done.
  cbn [length take]. intros [[Hmml Hfont] Hnames]%Forall_cons.
  destruct (IH _ Hnames) as [Hconfig Hfonts].
  change (zip (name :: names) (v :: values)) with ((name, v) :: zip names values).
  rewrite iniConfigEntries_cons, iniFontEntries_cons, configEntries_cons.
  destruct (String.eqb_spec name "mml") as [?|_]; [done|].
  rewrite Hfont, Hconfig, Hfonts. done.
Qed.

Lemma configEntries_keys (names values : list string) :
  (configEntries names values).*1
    = omap (λ name, imageConfigProperties !! name) (take (length values) names).
Proof.
  revert values. induction names as [|name names IH]; intros [|v values]; try done.
  rewrite configEntries_cons. cbn [length take]. rewrite fmap_app, IH.
  change (omap ?f (name :: ?l)) with
    (match f name with Some y => y :: omap f l | None => omap f l end).
  cbv beta. by destruct (imageConfigProperties !! name).
Qed.

Lemma zip_names (names values : list string) (name v : string) :
  (name, v) ∈ zip names values → name ∈ take (length values) names.
Proof.
  revert values. induction names as [|n names IH]; intros [|v' values]; simpl;
    try by intros ?%elem_of_nil.
  intros [[= -> ->]|Hin]%elem_of_cons; [apply list_elem_of_here|].
  apply list_elem_of_further. by apply IH.
Qed.

Lemma entryOf_unique (entries : list (string * string)) (name v : string) :
  (name, v) ∈ entries →
  (∀ v', (name, v') ∈ entries → v' = v) →
  entryOf entries name = Some v.
Proof.
  induction entries as [|[k v0] entries IH]; [by intros ?%elem_of_nil|].
  intros Hin Hunique. simpl.
  destruct (String.eqb_spec k name) as [->|Hne].
  - f_equal. apply Hunique, list_elem_of_here.
  - apply IH.
    + apply elem_of_cons in Hin as [[= ? ?]|Hin]; [congruence|done].
    + intros v' Hv'. by apply Hunique, list_elem_of_further.
Qed.

(** C4, as the readers have it.  A descriptor that both formats can hold
    and read alike is read to the same [ConfigAndFonts] from its file in
    line format and from its entries in key/value format, in whatever
    order the entries are enumerated: the trimmed MathML, the given
    configuration with the attributes put under their configuration keys,
    and the fonts numbered from [font0]. *)
Theorem formats_read_alike (config : gmap string string) (d : Descriptor)
    (content : string) (formulaConfig : list (string * string)) :
  readAlike d →
  inLineFormat d content →
  inKeyValueFormat d formulaConfig →
  ∃ configAndFonts,
    parseLines config content = inr configAndFonts
    ∧ fromIniEntries config formulaConfig = inr configAndFonts
    ∧ mathml configAndFonts = Trim (payload d).
Proof.
  intros (Hlen & Hfonts & Hnames & Hdistinct & Hblank) Hline Hini.
  unfold inLineFormat in Hline. unfold inKeyValueFormat in Hini.
  unfold attributeNames in *.
  set (values := attributeValues d) in *.
  eexists {| mathml := Trim (payload d);
             config := foldl put config (configEntries xmlFileAttributes values);
             fonts := foldl put ∅ (numbered 0 (Trim <$> fontValues d)) |}.
  split; [|split; [|done]].
  { unfold parseLines. rewrite Hline.
    rewrite attributesLoop_run, fontsLoop_run; try done.
    eapply Forall_impl; [exact Hnames|]. by intros name [? _]. }
  assert (Forall (λ name, name ≠ "mml" ∧ StartsWithFont name = false)
                 (take (length values) xmlFileAttributes)) as Hplain.
  { eapply Forall_impl; [exact Hnames|]. by intros name (_ & ? & ?). }
  destruct (iniEntries_zip xmlFileAttributes values Hplain) as [HzipC HzipF].
  assert (iniConfigEntries formulaConfig ≡ₚ configEntries xmlFileAttributes values)
    as HpermC.
  { unfold iniConfigEntries at 1. rewrite Hini.
    fold (iniConfigEntries (keyValueEntries d)).
    unfold keyValueEntries. rewrite iniConfigEntries_cons. cbn [String.eqb Ascii.eqb].
    fold values. unfold iniConfigEntries at 1. rewrite omap_app.
    fold (iniConfigEntries (zip xmlFileAttributes values)).
    fold (iniConfigEntries (numbered 0 (fontValues d))).
    by rewrite HzipC, iniConfigEntries_numbered, app_nil_r. }
  assert (iniFontEntries formulaConfig ≡ₚ numbered 0 (Trim <$> fontValues d))
    as HpermF.
  { unfold iniFontEntries at 1. rewrite Hini.
    fold (iniFontEntries (keyValueEntries d)).
    unfold keyValueEntries. rewrite iniFontEntries_cons. cbn [String.eqb Ascii.eqb].
    fold values. unfold iniFontEntries at 1. rewrite omap_app.
    fold (iniFontEntries (zip xmlFileAttributes values)).
    fold (iniFontEntries (numbered 0 (fontValues d))).
    by rewrite HzipF, iniFontEntries_numbered. }
  assert (NoDup (configEntries xmlFileAttributes values).*1) as HkeysC.
  { by rewrite configEntries_keys. }
  unfold fromIniEntries. rewrite iniLoop_run.
  - rewrite (entryOf_unique _ _ (payload d)).
    + f_equal. f_equal.
      * rewrite !foldl_put; [|done|by rewrite HpermC].
        f_equal. apply list_to_map_proper; [by rewrite HpermC|done].
      * rewrite !foldl_put; [|apply NoDup_numbered|rewrite HpermF; apply NoDup_numbered].
        f_equal. apply list_to_map_proper; [|done].
        rewrite HpermF. apply NoDup_numbered.
    + rewrite Hini. apply list_elem_of_here.
    + intros v'. rewrite Hini. unfold keyValueEntries.
      intros [[= ->]|[Hzip|Hfont]%elem_of_app]%elem_of_cons; [done|..].
      * apply zip_names in Hzip. rewrite Forall_forall in Hplain.
        by destruct (Hplain _ Hzip).
      * assert ("mml" ∈ (numbered 0 (fontValues d)).*1) as Hkey.
        { apply list_elem_of_fmap. by exists ("mml", v'). }
        apply numbered_keys in Hkey as (i & _ & Hkey).
        pose proof (fontKey_not_mml i) as Hne. rewrite <- Hkey in Hne. done.
  - rewrite Hini. unfold keyValueEntries.
    apply Forall_cons. split; [by left|]. apply Forall_app. split.
    + apply Forall_forall. intros [name v] Hzip%zip_names. simpl.
      rewrite Forall_forall in Hnames. destruct (Hnames _ Hzip) as [? _]. auto.
    + apply Forall_forall. intros [key v] Hfont. simpl.
      assert (key ∈ (numbered 0 (fontValues d)).*1) as Hkey.
      { apply list_elem_of_fmap. by exists (key, v). }
      apply numbered_keys in Hkey as (i & _ & ->).
      right. left. apply StartsWithFont_fontKey.
Qed.

End formats.

(** ** More on the readers *)

Section readers.

Context `{Libwiris} `{FileSystem}.

Lemma Split_cons (sep : ascii) (s : string) :
  Split sep s = hd "" (Split sep s) :: tail (Split sep s).
Proof.
  destruct s as [|c s]; [done|]. simpl.
  destruct (Ascii.eqb c sep); [done|]. by destruct (Split sep s).
Qed.

Lemma configEntries_nil_r (names : list string) : configEntries names [] = [].
Proof. by destruct names. Qed.

(** The first loop of the line reader, on any lines. *)
Lemma attributesLoop_outcome (lines names : list string) (config : gmap string string) :
  attributesLoop lines names config =
    if forallb translated (take (length lines) names)
    then inr (foldl put config (configEntries names lines), drop (length names) lines)
    else inl ArgumentNullException.
Proof.
  revert names config.
  induction lines as [|l lines IH]; intros names config.
  - rewrite configEntries_nil_r, drop_nil. by destruct names.
  - destruct names as [|name names]; [done|].
    cbn [attributesLoop length take forallb drop]. rewrite configEntries_cons.
    unfold translated at 1.
    destruct (imageConfigProperties !! name) as [key|].
    + rewrite bool_decide_eq_true_2 by eauto. rewrite IH. done.
    + rewrite bool_decide_eq_false_2 by (by intros [? ?]). done.
Qed.

(** The second loop of the line reader, on any lines. *)
Lemma fontsLoop_outcome (lines : list string) (j : nat) (fonts : gmap string string) :
  fontsLoop lines j fonts
    = foldl put fonts (numbered j (Trim <$> filter (λ l, Trim l ≠ "") lines)).
Proof.
  revert j fonts. induction lines as [|l lines IH]; intros j fonts; [done|].
  cbn [fontsLoop]. destruct (Trim l) as [|c line] eqn:Hline.
  - rewrite filter_cons_False by (rewrite Hline; auto). apply IH.
  - rewrite filter_cons_True by (by rewrite Hline).
    rewrite fmap_cons, Hline. cbn [numbered foldl String.length Nat.ltb Nat.leb].
    apply IH.
Qed.

(** The line reader, on any file. *)
Lemma parseLines_outcome (config : gmap string string) (content : string) :
  let lines := tail (Split "010" content) in
  parseLines config content =
    if forallb translated (take (length lines) xmlFileAttributes)
    then inr {| mathml := Trim (hd "" (Split "010" content));
                config := foldl put config (configEntries xmlFileAttributes lines);
                fonts := foldl put ∅ (numbered 0 (Trim <$> fontLines content)) |}
    else inl ArgumentNullException.
Proof.
  intros lines. unfold parseLines, fontLines. fold lines.
  rewrite (Split_cons "010" content). fold lines.
  rewrite attributesLoop_outcome.
  destruct (forallb _ _); [|done]. by rewrite fontsLoop_outcome.
Qed.

Lemma length_numbered (j : nat) (values : list string) :
  length (numbered j values) = length values.
Proof. revert j. induction values as [|v values IH]; intros j; simpl; auto. Qed.

Lemma numbered_lookup (j0 j : nat) (values : list string) :
  (list_to_map (numbered j0 values) : gmap string string) !! fontKey (j0 + j)
    = values !! j.
Proof.
  revert j0 j. induction values as [|v values IH]; intros j0 j; [done|].
  cbn [numbered]. rewrite list_to_map_cons. destruct j as [|j].
  - rewrite Nat.add_0_r. apply lookup_insert_eq.
  - rewrite lookup_insert_ne by (intros ?%fontKey_inj; lia).
    replace (j0 + S j) with (S j0 + j) by lia. apply IH.
Qed.

Lemma numbered_domain (j0 : nat) (values : list string) (key : string) :
  is_Some ((list_to_map (numbered j0 values) : gmap string string) !! key) →
  ∃ j, j < length values ∧ key = fontKey (j0 + j).
Proof.
  intros Hkey.
  assert (key ∈ (numbered j0 values).*1) as Hin.
  { destruct (decide (key ∈ (numbered j0 values).*1)) as [|Hout]; [done|].
    apply not_elem_of_list_to_map_1 in Hout.
    rewrite Hout in Hkey. by destruct Hkey. }
  apply numbered_keys in Hin as (i & Hi & ->).
  exists (i - j0). replace (j0 + (i - j0)) with i by lia. split; [|done].
  replace i with (j0 + (i - j0)) in Hkey by lia.
  rewrite numbered_lookup in Hkey. by apply lookup_lt_is_Some.
Qed.

(** The fonts of the line reader are [font0], [font1], ... without a gap. *)
Lemma parseLines_fonts (config : gmap string string) (content : string)
    (configAndFonts : ConfigAndFonts) :
  parseLines config content = inr configAndFonts →
  fonts configAndFonts = list_to_map (numbered 0 (Trim <$> fontLines content)).
Proof.
  rewrite parseLines_outcome. cbv zeta. destruct (forallb _ _); [|done].
  intros [= <-]. cbn [fonts].
  rewrite foldl_put by apply NoDup_numbered. apply (right_id_L ∅ (∪)).
Qed.

Lemma forallb_translated (names : list string) :
  forallb translated names = true
  ↔ Forall (λ name, is_Some (imageConfigProperties !! name)) names.
Proof.
  induction names as [|name names IH]; simpl.
  - split; [constructor|done].
  - rewrite andb_true_iff, Forall_cons, IH. unfold translated.
    by rewrite bool_decide_eq_true.
Qed.

(** X1. The line reader fails on no file but one that has a line for an
    attribute without a translation, and then with the null-key exception;
    a file that is empty or short only sets fewer attributes. *)
Theorem line_reader_outcome (config : gmap string string) (content : string) :
  let given := take (length (Split "010" content) - 1) xmlFileAttributes in
  (Forall (λ name, is_Some (imageConfigProperties !! name)) given →
   ∃ configAndFonts, parseLines config content = inr configAndFonts)
  ∧ (¬ Forall (λ name, is_Some (imageConfigProperties !! name)) given →
     parseLines config content = inl ArgumentNullException).
Proof.
  intros given. rewrite parseLines_outcome. cbv zeta.
  assert (length (tail (Split "010" content)) = length (Split "010" content) - 1)
    as -> by (rewrite (Split_cons "010" content) at 2; simpl; lia).
  fold given.
  destruct (forallb translated given) eqn:Hgiven.
  - split; [eauto|]. intros Hnot. exfalso. by apply Hnot, forallb_translated.
  - split; [|done]. intros Hall%forallb_translated. congruence.
Qed.

(** The fonts of the line reader: their number, the indices that are free,
    and their keys. *)
Lemma line_fonts_gapless (config : gmap string string) (content : string)
    (configAndFonts : ConfigAndFonts) :
  parseLines config content = inr configAndFonts →
  size (fonts configAndFonts) = length (fontLines content)
  ∧ (∀ j, size (fonts configAndFonts) ≤ j → fonts configAndFonts !! fontKey j = None)
  ∧ (∀ key, is_Some (fonts configAndFonts !! key) →
            ∃ j, j < size (fonts configAndFonts) ∧ key = fontKey j).
Proof.
  intros ->%parseLines_fonts.
  assert (size (list_to_map (numbered 0 (Trim <$> fontLines content))
                : gmap string string) = length (fontLines content)) as Hsize.
  { rewrite map_size_list_to_map by apply NoDup_numbered.
    by rewrite length_numbered, length_fmap. }
  split; [done|]. rewrite Hsize. split.
  - intros j Hj. rewrite (numbered_lookup 0 j).
    apply lookup_ge_None. by rewrite length_fmap.
  - intros key (j & Hj & ->)%numbered_domain. rewrite length_fmap in Hj. eauto.
Qed.

(** X2. The fonts the line reader returns are numbered without a gap: font
    [j] is the [j]-th non-blank line after the attribute lines, trimmed;
    there are as many fonts as such lines, and no other key. *)
Theorem line_fonts_numbered (config : gmap string string) (content : string)
    (configAndFonts : ConfigAndFonts) :
  parseLines config content = inr configAndFonts →
  size (fonts configAndFonts) = length (fontLines content)
  ∧ (∀ j, fonts configAndFonts !! fontKey j = Trim <$> fontLines content !! j)
  ∧ (∀ key, is_Some (fonts configAndFonts !! key) →
            ∃ j, j < length (fontLines content) ∧ key = fontKey j).
Proof.
  intros ->%parseLines_fonts. split; [|split].
  - rewrite map_size_list_to_map by apply NoDup_numbered.
    by rewrite length_numbered, length_fmap.
  - intros j. rewrite (numbered_lookup 0 j). apply list_lookup_fmap.
  - intros key (j & Hj & ->)%numbered_domain. rewrite length_fmap in Hj. eauto.
Qed.

Lemma fontRangesLoop_size (config : gmap string string) (carry : nat)
    (fontRanges : list string) (i : nat) (fonts : gmap string string) :
  (∀ j, fonts !! fontKey (carry + (i + j)) = None) →
  size (fontRangesLoop config carry fontRanges i fonts)
    = size fonts + length (resolvedRanges config fontRanges).
Proof.
  revert i fonts.
  induction fontRanges as [|name rest IH]; intros i fonts Hfresh.
  - simpl. lia.
  - rewrite resolvedRanges_cons. cbn [fontRangesLoop].
    destruct (config !! Trim name) as [v|]; [|by apply IH].
    rewrite IH.
    + rewrite map_size_insert_None; [simpl; lia|].
      specialize (Hfresh 0). by rewrite Nat.add_0_r in Hfresh.
    + intros j. rewrite lookup_insert_ne by (intros ?%fontKey_inj; lia).
      replace (S i + j) with (i + S j) by lia. apply Hfresh.
Qed.

(** X3. For a descriptor in line format the font ranges never collide with
    the fonts of the file: every font of the file keeps its value, and the
    fonts grow by exactly the number of range names that resolve. *)
Theorem line_fontranges_extend (config : gmap string string) (content : string)
    (configAndFonts : ConfigAndFonts) :
  parseLines config content = inr configAndFonts →
  (∀ key v, fonts configAndFonts !! key = Some v →
            finalFonts configAndFonts !! key = Some v)
  ∧ size (finalFonts configAndFonts)
    = size (fonts configAndFonts) + length (addedRanges configAndFonts).
Proof.
  intros Hparsed.
  destruct (line_fonts_gapless _ _ _ Hparsed) as (Hsize & Hnone & Hkeys).
  unfold finalFonts, addFontRanges, addedRanges.
  destruct (finalConfig configAndFonts !! "wirisimagefontranges") as [ranges|];
    [|split; [done | simpl; lia]].
  split.
  - intros key v Hkey. rewrite fontRangesLoop_other; [done|].
    intros j _ ->. destruct (Hkeys (fontKey (size (fonts configAndFonts) + (0 + j))))
      as (j' & Hj' & Heq%fontKey_inj); [eauto|]. lia.
  - apply fontRangesLoop_size. intros j. apply Hnone. lia.
Qed.

(** The first loop of the key/value reader, on any entries. *)
Lemma iniLoop_outcome (entries : list (string * string))
    (config fonts : gmap string string) :
  iniLoop entries config fonts =
    if forallb (λ entry, knownKey entry.1) entries
    then inr (foldl put config (iniConfigEntries entries),
              foldl put fonts (iniFontEntries entries))
    else inl ArgumentNullException.
Proof.
  revert config fonts.
  induction entries as [|[key v] entries IH]; intros config fonts; [done|].
  cbn [iniLoop forallb fst]. rewrite iniConfigEntries_cons, iniFontEntries_cons.
  unfold knownKey at 1, translated.
  destruct (String.eqb key "mml"); [apply IH|].
  destruct (StartsWithFont key); [apply IH|].
  destruct (imageConfigProperties !! key) as [configKey|].
  - rewrite bool_decide_eq_true_2 by eauto. apply IH.
  - by rewrite bool_decide_eq_false_2 by (by intros [? ?]).
Qed.

Lemma forallb_knownKey (entries : list (string * string)) :
  forallb (λ entry, knownKey entry.1) entries = true
  ↔ ∀ entry, entry ∈ entries → knownKey entry.1 = true.
Proof.
  induction entries as [|entry entries IH]; simpl.
  - split; [|done]. by intros _ ? ?%elem_of_nil.
  - rewrite andb_true_iff, IH. split.
    + intros [Hentry Hrest] e [->|He]%elem_of_cons; auto.
    + intros Hall. split; [apply Hall, list_elem_of_here|].
      intros e He. by apply Hall, list_elem_of_further.
Qed.

(** X4. The key/value reader has three outcomes.  An entry whose key is
    not [mml], does not start with ["font"] and has no translation ends it
    with the null-key exception, [mml] or not; otherwise a missing [mml]
    ends it with the null-reference exception; otherwise it returns a
    descriptor whose MathML is the trimmed [mml] entry. *)
Theorem ini_reader_outcome (config : gmap string string)
    (formulaConfig : list (string * string)) :
  ((∃ entry, entry ∈ formulaConfig ∧ knownKey entry.1 = false) →
   fromIniEntries config formulaConfig = inl ArgumentNullException)
  ∧ ((∀ entry, entry ∈ formulaConfig → knownKey entry.1 = true) →
     match entryOf formulaConfig "mml" with
     | None => fromIniEntries config formulaConfig = inl NullReferenceException
     | Some mml =>
         ∃ configAndFonts,
           fromIniEntries config formulaConfig = inr configAndFonts
           ∧ mathml configAndFonts = Trim mml
     end).
Proof.
  unfold fromIniEntries. rewrite iniLoop_outcome.
  destruct (forallb _ formulaConfig) eqn:Hknown.
  - pose proof (proj1 (forallb_knownKey _) Hknown) as Hall. split.
    + intros (entry & Hentry & Hunknown). rewrite Hall in Hunknown; done.
    + intros _. destruct (entryOf formulaConfig "mml"); eauto.
  - split; [done|]. intros Hall.
    pose proof (proj2 (forallb_knownKey _) Hall). congruence.
Qed.

Lemma foldl_put_other (entries : list (string * string))
    (table : gmap string string) (key : string) :
  (∀ entry, entry ∈ entries → entry.1 ≠ key) →
  foldl put table entries !! key = table !! key.
Proof.
  revert table. induction entries as [|entry entries IH]; intros table Hkey; [done|].
  simpl. rewrite IH.
  - unfold put. apply lookup_insert_ne, Hkey, list_elem_of_here.
  - intros e He. by apply Hkey, list_elem_of_further.
Qed.

Lemma foldl_put_is_Some (entries : list (string * string))
    (table : gmap string string) (key : string) :
  is_Some (table !! key) → is_Some (foldl put table entries !! key).
Proof.
  revert table. induction entries as [|entry entries IH]; intros table Hkey; [done|].
  simpl. apply IH. unfold put.
  destruct (decide (entry.1 = key)) as [->|Hne].
  - rewrite lookup_insert_eq. eauto.
  - by rewrite lookup_insert_ne.
Qed.

Lemma configEntries_translations (names values : list string)
    (entry : string * string) :
  entry ∈ configEntries names values →
  ∃ name, imageConfigProperties !! name = Some entry.1.
Proof.
  unfold configEntries. intros ([name v] & _ & Hentry)%list_elem_of_omap.
  exists name. destruct (imageConfigProperties !! name); by simplify_eq/=.
Qed.

Lemma iniConfigEntries_translations (entries : list (string * string))
    (entry : string * string) :
  entry ∈ iniConfigEntries entries →
  ∃ name, imageConfigProperties !! name = Some entry.1.
Proof.
  unfold iniConfigEntries. intros ([name v] & _ & Hentry)%list_elem_of_omap.
  exists name. destruct (String.eqb name "mml"); [done|].
  destruct (StartsWithFont name); [done|].
  destruct (imageConfigProperties !! name); by simplify_eq/=.
Qed.

(** X5. Both readers only write configuration keys that are translations
    of [imageConfigProperties]: every other key of the server's
    configuration reaches [createImage] with its value, and no key of the
    server's configuration is lost. *)
Theorem readers_keep_server_config (config0 : gmap string string)
    (content : string) (formulaConfig : list (string * string))
    (configAndFonts : ConfigAndFonts) :
  parseLines config0 content = inr configAndFonts
    ∨ fromIniEntries config0 formulaConfig = inr configAndFonts →
  (∀ key, (∀ name, imageConfigProperties !! name ≠ Some key) →
          config configAndFonts !! key = config0 !! key)
  ∧ (∀ key, is_Some (config0 !! key) → is_Some (config configAndFonts !! key)).
Proof.
  intros [Hlines|Hini].
  - rewrite parseLines_outcome in Hlines. cbv zeta in Hlines.
    destruct (forallb _ _); [|done]. injection Hlines as <-. cbn [config]. split.
    + intros key Hkey. apply foldl_put_other.
      intros entry (name & Hname)%configEntries_translations Heq.
      rewrite Heq in Hname. by apply (Hkey name).
    + intros key. apply foldl_put_is_Some.
  - unfold fromIniEntries in Hini. rewrite iniLoop_outcome in Hini.
    destruct (forallb _ _); [|done].
    destruct (entryOf formulaConfig "mml"); [|done].
    injection Hini as <-. cbn [config]. split.
    + intros key Hkey. apply foldl_put_other.
      intros entry (name & Hname)%iniConfigEntries_translations Heq.
      rewrite Heq in Hname. by apply (Hkey name).
    + intros key. apply foldl_put_is_Some.
Qed.

(** The fonts of the key/value reader keep the keys of their entries. *)
Lemma iniFontEntries_keys (entries : list (string * string)) :
  (iniFontEntries entries).*1 `sublist_of` entries.*1.
Proof.
  induction entries as [|[key v] entries IH]; [done|].
  rewrite iniFontEntries_cons. cbn [fmap list_fmap fst].
  destruct (String.eqb key "mml"); [by apply sublist_cons|].
  destruct (StartsWithFont key); [|by apply sublist_cons].
  simpl. by apply sublist_skip.
Qed.

Lemma entryOf_Some (entries : list (string * string)) (name v : string) :
  NoDup entries.*1 →
  entryOf entries name = Some v ↔ (name, v) ∈ entries.
Proof.
  induction entries as [|[k x] entries IH]; intros Hkeys; simpl.
  - split; [done | by intros ?%elem_of_nil].
  - apply NoDup_cons in Hkeys as [Hk Hkeys]. rewrite elem_of_cons.
    destruct (String.eqb_spec k name) as [->|Hne].
    + split; [intros [= ->]; by left|].
      intros [[= ->]|Hin]; [done|]. exfalso. apply Hk.
      apply list_elem_of_fmap. by exists (name, v).
    + rewrite IH by done. split; [auto|]. intros [[= ? ?]|?]; [congruence|done].
Qed.

Lemma entryOf_Permutation (l1 l2 : list (string * string)) (name : string) :
  NoDup l1.*1 → l1 ≡ₚ l2 → entryOf l1 name = entryOf l2 name.
Proof.
  intros Hkeys Hperm.
  assert (NoDup l2.*1) as Hkeys2 by (by rewrite <- Hperm).
  destruct (entryOf l1 name) as [v|] eqn:H1.
  - symmetry. apply entryOf_Some; [done|]. rewrite <- Hperm. by apply entryOf_Some.
  - destruct (entryOf l2 name) as [v|] eqn:H2; [|done].
    apply entryOf_Some in H2; [|done]. rewrite <- Hperm in H2.
    apply entryOf_Some in H2; [|done]. congruence.
Qed.

Lemma forallb_Permutation {A} (f : A → bool) (l1 l2 : list A) :
  l1 ≡ₚ l2 → forallb f l1 = forallb f l2.
Proof.
  induction 1 as [|x l1 l2 _ IH|x y l|l1 l2 l3 _ IH1 _ IH2]; simpl.
  - done.
  - by rewrite IH.
  - by rewrite !andb_assoc, (andb_comm (f y)).
  - congruence.
Qed.

(** X18. A Hashtable enumerates its entries in an order of its own.  The
    key/value reader does not depend on it: as long as no two entries are
    translated to the same configuration key, the entries of a file give
    the same outcome in every order. *)
Theorem ini_reader_order (config : gmap string string)
    (l1 l2 : list (string * string)) :
  NoDup l1.*1 →
  NoDup (iniConfigEntries l1).*1 →
  l1 ≡ₚ l2 →
  fromIniEntries config l1 = fromIniEntries config l2.
Proof.
  intros Hkeys Hconfig Hperm. unfold fromIniEntries.
  rewrite !iniLoop_outcome, (forallb_Permutation _ _ _ Hperm).
  destruct (forallb _ l2); [|done].
  rewrite (entryOf_Permutation _ _ _ Hkeys Hperm).
  assert (iniConfigEntries l1 ≡ₚ iniConfigEntries l2) as HpermC.
  { unfold iniConfigEntries. by rewrite Hperm. }
  assert (iniFontEntries l1 ≡ₚ iniFontEntries l2) as HpermF.
  { unfold iniFontEntries. by rewrite Hperm. }
  assert (NoDup (iniFontEntries l1).*1) as Hfonts.
  { exact (sublist_NoDup _ _ Hkeys (iniFontEntries_keys l1)). }
  rewrite (foldl_put (iniConfigEntries l1)) by done.
  rewrite (foldl_put (iniConfigEntries l2)) by (by rewrite <- HpermC).
  rewrite (foldl_put (iniFontEntries l1)) by done.
  rewrite (foldl_put (iniFontEntries l2)) by (by rewrite <- HpermF).
  rewrite (list_to_map_proper _ _ Hconfig HpermC).
  rewrite (list_to_map_proper _ _ Hfonts HpermF). done.
Qed.

(** *** Trimming *)

Lemma rev_app_string (s t : string) : String.rev_app s t = String.rev s +:+ t.
Proof.
  unfold String.rev. revert t. induction s as [|c s IH]; intros t; [done|].
  simpl. rewrite (IH (String c "")), IH, app_string_assoc. done.
Qed.

Lemma rev_string_cons (c : ascii) (s : string) :
  String.rev (String c s) = String.rev s +:+ String c "".
Proof. unfold String.rev at 1. simpl. apply rev_app_string. Qed.

Lemma app_string_nil_r (s : string) : s +:+ "" = s.
Proof. induction s as [|c s IH]; [done|]. by rewrite app_string_cons, IH. Qed.

Lemma rev_string_app (s t : string) :
  String.rev (s +:+ t) = String.rev t +:+ String.rev s.
Proof.
  induction s as [|c s IH].
  - by rewrite app_string_nil, app_string_nil_r.
  - rewrite app_string_cons, !rev_string_cons, IH. apply app_string_assoc.
Qed.

Lemma rev_string_involutive (s : string) : String.rev (String.rev s) = s.
Proof.
  induction s as [|c s IH]; [done|].
  by rewrite rev_string_cons, rev_string_app, IH.
Qed.

Lemma TrimStart_idempotent (s : string) : TrimStart (TrimStart s) = TrimStart s.
Proof.
  induction s as [|c s IH]; [done|]. simpl.
  destruct (IsWhiteSpace c) eqn:Hc; [done|]. simpl. by rewrite Hc.
Qed.

Lemma TrimStart_suffix (s : string) : ∃ spaces, s = spaces +:+ TrimStart s.
Proof.
  induction s as [|c s [spaces IH]]; [by exists ""|]. simpl.
  destruct (IsWhiteSpace c).
  - exists (String c spaces). by rewrite app_string_cons, <- IH.
  - by exists "".
Qed.

Lemma TrimStart_head (s rest : string) (c : ascii) :
  TrimStart s = String c rest → IsWhiteSpace c = false.
Proof.
  induction s as [|d s IH]; [done|]. simpl.
  destruct (IsWhiteSpace d) eqn:Hd; [done|]. by intros [= <- _].
Qed.

(** Trimming a trimmed string changes nothing. *)
Lemma Trim_idempotent (s : string) : Trim (Trim s) = Trim s.
Proof.
  unfold Trim, TrimEnd. set (t := TrimStart s).
  set (u := String.rev (TrimStart (String.rev t))).
  assert (TrimStart u = u) as Hstart.
  { destruct (TrimStart_suffix (String.rev t)) as [spaces Hspaces].
    assert (t = u +:+ String.rev spaces) as Ht.
    { rewrite <- (rev_string_involutive t), Hspaces. apply rev_string_app. }
    destruct u as [|c u']; [done|].
    rewrite app_string_cons in Ht. apply TrimStart_head in Ht.
    simpl. by rewrite Ht. }
  rewrite Hstart. subst u.
  by rewrite rev_string_involutive, TrimStart_idempotent.
Qed.

Lemma foldl_put_cases (entries : list (string * string))
    (table : gmap string string) (key v : string) :
  foldl put table entries !! key = Some v →
  table !! key = Some v ∨ (key, v) ∈ entries.
Proof.
  revert table. induction entries as [|[k x] entries IH]; intros table; [auto|].
  simpl. intros [Hkey|Hin]%IH.
  - unfold put in Hkey. simpl in Hkey.
    destruct (decide (k = key)) as [->|Hne].
    + rewrite lookup_insert_eq in Hkey. injection Hkey as ->.
      right. apply list_elem_of_here.
    + rewrite lookup_insert_ne in Hkey by done. auto.
  - right. by apply list_elem_of_further.
Qed.

Lemma numbered_values (j : nat) (values : list string) (key v : string) :
  (key, v) ∈ numbered j values → v ∈ values.
Proof.
  revert j. induction values as [|x values IH]; intros j; simpl.
  - by intros ?%elem_of_nil.
  - intros [[= _ ->]|Hin]%elem_of_cons; [apply list_elem_of_here|].
    apply list_elem_of_further. by apply (IH (S j)).
Qed.

(** X17. What the readers return is trimmed: the MathML and every font
    have no white space around them, and so has every configuration value
    that does not come from the server's configuration; trimming them
    again, as [createImage] does, changes nothing. *)
Theorem readers_return_trimmed (config0 : gmap string string)
    (content : string) (formulaConfig : list (string * string))
    (configAndFonts : ConfigAndFonts) :
  parseLines config0 content = inr configAndFonts
    ∨ fromIniEntries config0 formulaConfig = inr configAndFonts →
  Trim (mathml configAndFonts) = mathml configAndFonts
  ∧ (∀ key v, fonts configAndFonts !! key = Some v → Trim v = v)
  ∧ (∀ key v, config configAndFonts !! key = Some v →
              config0 !! key = Some v ∨ Trim v = v).
Proof.
  intros [Hlines|Hini].
  - rewrite parseLines_outcome in Hlines. cbv zeta in Hlines.
    destruct (forallb _ _); [|done]. injection Hlines as <-. cbn.
    split; [apply Trim_idempotent|]. split.
    + intros key v [Hempty|Hin%numbered_values]%foldl_put_cases;
        [by rewrite lookup_empty in Hempty|].
      apply list_elem_of_fmap in Hin as (x & -> & _). apply Trim_idempotent.
    + intros key v [Hserver|Hin]%foldl_put_cases; [auto|]. right.
      unfold configEntries in Hin.
      apply list_elem_of_omap in Hin as ([name x] & _ & Hentry).
      destruct (imageConfigProperties !! name); simplify_eq/=.
      apply Trim_idempotent.
  - unfold fromIniEntries in Hini. rewrite iniLoop_outcome in Hini.
    destruct (forallb _ _); [|done].
    destruct (entryOf formulaConfig "mml"); [|done].
    injection Hini as <-. cbn.
    split; [apply Trim_idempotent|]. split.
    + intros key v [Hempty|Hin]%foldl_put_cases;
        [by rewrite lookup_empty in Hempty|].
      unfold iniFontEntries in Hin.
      apply list_elem_of_omap in Hin as ([name x] & _ & Hentry).
      destruct (String.eqb name "mml"); [done|].
      destruct (StartsWithFont name); simplify_eq/=. apply Trim_idempotent.
    + intros key v [Hserver|Hin]%foldl_put_cases; [auto|]. right.
      unfold iniConfigEntries in Hin.
      apply list_elem_of_omap in Hin as ([name x] & _ & Hentry).
      destruct (String.eqb name "mml"); [done|].
      destruct (StartsWithFont name); [done|].
      destruct (imageConfigProperties !! name); simplify_eq/=.
      apply Trim_idempotent.
Qed.

End readers.

(** ** More on the render parameters *)

Section more_parameters.

Context `{Libwiris} `{FileSystem}.

Lemma insert_fresh_Some (m : gmap string string) (i k x v : string) :
  m !! i = None → m !! k = Some v → <[i := x]> m !! k = Some v.
Proof. intros Hi Hk. rewrite lookup_insert_ne; [done | congruence]. Qed.

Lemma retrocompatibility_keeps (config : gmap string string) (key v : string) :
  config !! key = Some v → retrocompatibility config !! key = Some v.
Proof.
  intros Hkey. unfold retrocompatibility.
  destruct (config !! "wirisimagenumbercolor") eqn:Hnumber;
    destruct (config !! "wirisimagesymbolcolor") eqn:Hsymbol;
    repeat match goal with
           | |- context [match ?x with _ => _ end] => destruct x eqn:?
           end;
    auto using insert_fresh_Some.
Qed.

(** X6. The retrocompatibility rules only fill in: every key the
    configuration has keeps its value, so a number or identifier colour of
    its own is never replaced by the symbol colour; without a symbol colour
    nothing changes; and no key but the two colours appears. *)
Theorem retrocompatibility_only_adds (config : gmap string string) :
  (∀ key v, config !! key = Some v → retrocompatibility config !! key = Some v)
  ∧ (config !! "wirisimagesymbolcolor" = None → retrocompatibility config = config)
  ∧ (∀ key, is_Some (retrocompatibility config !! key) →
            is_Some (config !! key)
            ∨ key = "wirisimagenumbercolor" ∨ key = "wirisimageidentcolor").
Proof.
  split; [apply retrocompatibility_keeps|]. split.
  - intros Hsymbol. unfold retrocompatibility. rewrite Hsymbol.
    destruct (config !! "wirisimagenumbercolor"); rewrite Hsymbol;
      by destruct (config !! "wirisimageidentcolor").
  - intros key Hkey.
    destruct (decide (key = "wirisimagenumbercolor")) as [|Hnumber]; [auto|].
    destruct (decide (key = "wirisimageidentcolor")) as [|Hident]; [auto|].
    left. by rewrite retrocompatibility_other in Hkey.
Qed.

Lemma computedProperties_lookup (configAndFonts : ConfigAndFonts) (name : string) :
  computedProperties configAndFonts !! name =
    match finalFonts configAndFonts !! name with
    | Some v => Some v
    | None =>
        match imageConfigProperties !! name
              ≫= λ configKey, finalConfig configAndFonts !! configKey with
        | Some v => Some (Trim v)
        | None => if decide (name = "mml") then Some (mathml configAndFonts) else None
        end
    end.
Proof.
  unfold computedProperties.
  rewrite fontsToParameters_lookup, configToParameters_lookup.
  destruct (finalFonts configAndFonts !! name); [done|].
  assert (({[ "mml" := mathml configAndFonts ]} : gmap string string) !! name
          = if decide (name = "mml") then Some (mathml configAndFonts) else None)
    as Hmml.
  { destruct (decide (name = "mml")) as [->|Hne].
    - apply lookup_singleton_eq.
    - by apply lookup_singleton_ne. }
  destruct (imageConfigProperties !! name) as [configKey|]; simpl; [|done].
  by destruct (finalConfig configAndFonts !! configKey).
Qed.

(** X7. The computed parameters, key by key: a font wins over a
    configuration value, which wins over the MathML; a configuration value
    is sent trimmed, under the server parameter that is translated to its
    key; and a name that is none of these is not sent at all, rather than
    sent empty. *)
Theorem computed_parameters (configAndFonts : ConfigAndFonts) (name : string) :
  computedProperties configAndFonts !! name =
    match finalFonts configAndFonts !! name with
    | Some v => Some v
    | None =>
        match imageConfigProperties !! name
              ≫= λ configKey, finalConfig configAndFonts !! configKey with
        | Some v => Some (Trim v)
        | None => if decide (name = "mml") then Some (mathml configAndFonts) else None
        end
    end.
Proof. apply computedProperties_lookup. Qed.

(** X8. The MathML sent for a stored formula is the MathML of its
    descriptor, user params or not: as long as [mml] is neither translated
    by [imageConfigProperties] nor an attribute name, nothing in the file or
    in the query can replace it. *)
Theorem mml_comes_from_descriptor (request : Request) (config0 : gmap string string)
    (content : string) (formulaConfig : list (string * string))
    (configAndFonts : ConfigAndFonts) (useParams : bool) :
  parseLines config0 content = inr configAndFonts
    ∨ fromIniEntries config0 formulaConfig = inr configAndFonts →
  imageConfigProperties !! "mml" = None →
  inArray "mml" xmlFileAttributes = false →
  imageProperties request configAndFonts useParams !! "mml"
    = Some (mathml configAndFonts).
Proof.
  intros Hloaded Htable Hattribute.
  assert (computedProperties configAndFonts !! "mml" = Some (mathml configAndFonts))
    as Hcomputed.
  { rewrite computedProperties_lookup, Htable. simpl.
    destruct (finalFonts configAndFonts !! "mml") as [v|] eqn:Hfont; [|done].
    assert (fontKeys (finalFonts configAndFonts)) as Hkeys.
    { apply finalFonts_fontKeys.
      destruct Hloaded; eauto using parseLines_fontKeys, fromIniEntries_fontKeys. }
    by specialize (Hkeys "mml" (mk_is_Some _ _ Hfont)). }
  unfold imageProperties. destruct useParams; [|done].
  rewrite userParams_lookup. cbn [isUserParam]. rewrite Hattribute.
  assert (StartsWithFont "mml" = false) as -> by done.
  rewrite andb_false_r. by destruct (Item (Query request) "mml").
Qed.

(** X9. [mustBeCached] answers yes exactly when no key of the query is an
    attribute name or starts with ["font"]; a value without a name never
    counts, nor does the order or the value of an entry. *)
Theorem mustBeCached_iff (request : Request) :
  mustBeCached request = true
  ↔ ∀ key, Some key ∈ AllKeys (Query request) →
           inArray key xmlFileAttributes = false ∧ StartsWithFont key = false.
Proof.
  unfold mustBeCached. rewrite mustBeCached_loop_true. split.
  - intros Hall key Hkey. specialize (Hall _ Hkey). simpl in Hall.
    by apply orb_false_elim in Hall.
  - intros Hall [key|] Hkey; [|done]. simpl.
    destruct (Hall _ Hkey) as [-> ->]. done.
Qed.

End more_parameters.

(** ** More on the page *)

Section more_page.

Context `{Libwiris} `{FileSystem}.

(** What [createImage] does to the world: it reads the descriptor, calls
    the renderer at most once, and touches no file. *)
Lemma createImage_effect (request : Request) (config : gmap string string)
    (formulaPath formulaPathExtension : string) (useParams : bool) (w : World) :
  let run := createImage request config formulaPath formulaPathExtension useParams w in
  files run.2 = files w
  ∧ unwritable run.2 = unwritable w
  ∧ accesses run.2
    = accesses w ++ [Read (descriptorPath formulaPath formulaPathExtension)]
  ∧ ∃ calls, renders run.2 = renders w ++ calls ∧ length calls ≤ 1.
Proof.
  cbv zeta. rewrite createImage_run. cbv zeta.
  destruct (loadedFrom _ _ _ _) as [e|configAndFonts]; simpl.
  - split_and!; [done..|]. exists []. split; [by rewrite app_nil_r | simpl; lia].
  - split_and!; [done..|]. eexists [_]. split; [done | simpl; lia].
Qed.

(** [saveImage] leaves the renderer's log alone and changes one file at
    most. *)
Lemma saveImage_effect (imagePath : string) (stream : list Byte.byte) (w : World) :
  let run := saveImage imagePath stream w in
  renders run.2 = renders w
  ∧ unwritable run.2 = unwritable w
  ∧ (∀ path, path ≠ imagePath → files run.2 !! path = files w !! path)
  ∧ (∀ path, is_Some (files w !! path) → is_Some (files run.2 !! path)).
Proof.
  cbv zeta. rewrite saveImage_run.
  destruct (bool_decide (imagePath ∈ unwritable w)); simpl; [done|].
  split_and!; [done..| |].
  - intros path Hpath. by rewrite lookup_insert_ne.
  - intros path Hpath. destruct (decide (imagePath = path)) as [->|Hne].
    + rewrite lookup_insert_eq. eauto.
    + by rewrite lookup_insert_ne.
Qed.

(** X10. Whatever the request, [Page_Load] calls the renderer at most once,
    changes no file but a cache image [cacheDir/name.png], so that the
    descriptors are never written, and removes no file. *)
Theorem Page_Load_frame (config : gmap string string) (request : Request)
    (w : World) :
  let run := Page_Load config request w in
  (∃ calls, renders run.2 = renders w ++ calls ∧ length calls ≤ 1)
  ∧ (∀ path, (∀ name, path ≠ imagePathOf config name) →
             files run.2 !! path = files w !! path)
  ∧ (∀ path, is_Some (files w !! path) → is_Some (files run.2 !! path)).
Proof.
  cbv zeta.
  assert (∃ calls : list RenderCall, renders w = renders w ++ calls ∧ length calls ≤ 1)
    as Hnone by (exists []; split; [by rewrite app_nil_r | simpl; lia]).
  destruct (Item (Query request) "formula") as [id|] eqn:Hid.
  - destruct (GetFileNameWithoutExtension id) as [formula|] eqn:Hformula;
      [|unfold Page_Load; by rewrite Hid, Hformula].
    rewrite (Page_Load_formula _ _ _ _ _ Hid Hformula). cbv zeta.
    destruct (mustBeCached request).
    + destruct (files w !! imagePathOf config formula) as [bytes|]; [done|].
      match goal with
      | |- context [createImage ?r ?c ?p ?e ?b ?w'] =>
          destruct (createImage_effect r c p e b w') as (Hfiles & Hlocked & _ & Hcalls);
          destruct (createImage r c p e b w') as [[e'|stream] w3]
      end; simpl in Hfiles, Hlocked, Hcalls.
      * simpl. rewrite Hfiles. done.
      * destruct (bool_decide (imagePathOf config formula ∈ unwritable w3)); simpl.
        { rewrite Hfiles. done. }
        rewrite Hfiles. split_and!; [done| |].
        -- intros path Hpath. by rewrite lookup_insert_ne.
        -- intros path Hpath.
           destruct (decide (imagePathOf config formula = path)) as [->|Hne].
           ++ rewrite lookup_insert_eq. eauto.
           ++ by rewrite lookup_insert_ne.
    + match goal with
      | |- context [createImage ?r ?c ?p ?e ?b ?w'] =>
          destruct (createImage_effect r c p e b w') as (Hfiles & _ & _ & Hcalls);
          destruct (createImage r c p e b w') as [[e'|stream] w3]
      end; simpl in Hfiles, Hcalls; simpl; by rewrite Hfiles.
  - destruct (Item (Query request) "mml") as [mml|] eqn:Hmml;
      [|unfold Page_Load; by rewrite Hid, Hmml].
    rewrite (Page_Load_mml _ _ _ _ Hid Hmml). cbv zeta.
    assert (∀ path, (∀ name, path ≠ imagePathOf config name) →
                    tempPathOf config ≠ path) as Htemp.
    { intros path Hpath <-. by apply (Hpath "temp"). }
    destruct (getContents _ _ _) as [stream|]; simpl.
    + destruct (bool_decide (tempPathOf config ∈ unwritable w)); simpl.
      * split_and!; [|done..]. eexists [_]. split; [done | simpl; lia].
      * split_and!.
        -- eexists [_]. split; [done | simpl; lia].
        -- intros path Hpath. by rewrite lookup_insert_ne by auto.
        -- intros path Hpath.
           destruct (decide (tempPathOf config = path)) as [->|Hne].
           ++ rewrite lookup_insert_eq. eauto.
           ++ by rewrite lookup_insert_ne.
    + split_and!; [|done..]. eexists [_]. split; [done | simpl; lia].
Qed.

(** X11. When the remote call fails on a cacheable request whose image is
    not cached, the request ends with the renderer's exception and the
    cache file is not even created: the files are as they were, so the
    next request renders again. *)
Theorem renderer_failure_leaves_cache (config : gmap string string)
    (request : Request) (id formula : string) (configAndFonts : ConfigAndFonts)
    (w : World) :
  let formulaPath := formulaPathOf config formula in
  let imagePath := imagePathOf config formula in
  Item (Query request) "formula" = Some id →
  GetFileNameWithoutExtension id = Some formula →
  mustBeCached request = true →
  files w !! imagePath = None →
  loadedFrom config formulaPath (extensionOf formulaPath w) w = inr configAndFonts →
  getContents (getImageServiceURL (finalConfig configAndFonts))
    (computedProperties configAndFonts) (Referer request) = None →
  let run := Page_Load config request w in
  run.1 = inl WebException
  ∧ files run.2 = files w
  ∧ accesses run.2
    = accesses w ++ [Probe (formulaPath +:+ ".ini"); Probe imagePath;
                     Read (descriptorPath formulaPath (extensionOf formulaPath w))]
  ∧ length (renders run.2) = S (length (renders w)).
Proof.
  intros formulaPath imagePath Hid Hformula Hcached Himage Hloaded Hrender run.
  subst run. rewrite (Page_Load_formula _ _ _ _ _ Hid Hformula), Hcached. cbv zeta.
  fold formulaPath imagePath. rewrite Himage, createImage_run. cbv zeta.
  rewrite (loadedFrom_files _ _ _ _ w) by done. rewrite Hloaded.
  unfold imageProperties. rewrite Hrender. simpl.
  split_and!; [done..| |].
  - by rewrite <- !app_assoc.
  - rewrite length_app. simpl. lia.
Qed.

(** X12. Identifiers with the same stem are one formula: two cacheable
    requests whose identifiers differ only in directories or extension
    ([eq1], [eq1.png], [../x/eq1.xml]) read the same descriptor and the
    same cache file, and are handled alike. *)
Theorem identifiers_with_one_stem (config : gmap string string) (r1 r2 : Request)
    (id1 id2 : string) (w : World) :
  Item (Query r1) "formula" = Some id1 →
  Item (Query r2) "formula" = Some id2 →
  GetFileNameWithoutExtension id1 = GetFileNameWithoutExtension id2 →
  mustBeCached r1 = true →
  mustBeCached r2 = true →
  Referer r1 = Referer r2 →
  Page_Load config r1 w = Page_Load config r2 w.
Proof.
  intros Hid1 Hid2 Hstem Hcached1 Hcached2 Hreferer.
  destruct (GetFileNameWithoutExtension id2) as [formula|] eqn:Hformula.
  - rewrite (Page_Load_formula _ r1 _ _ _ Hid1 Hstem).
    rewrite (Page_Load_formula _ r2 _ _ _ Hid2 Hformula).
    rewrite Hcached1, Hcached2. cbv zeta.
    by rewrite (createImage_cached r1 r2).
  - unfold Page_Load. by rewrite Hid1, Hid2, Hstem, Hformula.
Qed.

(** The answer of [Page_Load], and the files it leaves, depend on the files
    and on what can be created, not on what happened before. *)
Lemma Page_Load_history (config : gmap string string) (request : Request)
    (w w' : World) :
  files w = files w' →
  unwritable w = unwritable w' →
  (Page_Load config request w).1 = (Page_Load config request w').1
  ∧ files (Page_Load config request w).2 = files (Page_Load config request w').2.
Proof.
  intros Hfiles Hlocked.
  destruct (Item (Query request) "formula") as [id|] eqn:Hid.
  - destruct (GetFileNameWithoutExtension id) as [formula|] eqn:Hformula;
      [|unfold Page_Load; by rewrite Hid, Hformula].
    rewrite !(Page_Load_formula _ _ _ _ _ Hid Hformula). cbv zeta.
    unfold extensionOf. rewrite <- Hfiles.
    rewrite !createImage_run. cbv zeta.
    rewrite !(loadedFrom_files _ _ _ (logged _ (logged _ w')) w) by done.
    rewrite !(loadedFrom_files _ _ _ (logged _ (logged _ w)) w) by done.
    rewrite !(loadedFrom_files _ _ _ (logged _ w') w) by done.
    rewrite !(loadedFrom_files _ _ _ (logged _ w) w) by done.
    destruct (mustBeCached request).
    + destruct (files w !! imagePathOf config formula); [by simpl|].
      destruct (loadedFrom _ _ _ w) as [e|configAndFonts]; [by simpl|].
      destruct (getContents _ _ _); [|by simpl]. simpl. rewrite <- Hlocked.
      destruct (bool_decide _); simpl; by rewrite Hfiles.
    + destruct (loadedFrom _ _ _ w) as [e|configAndFonts]; [by simpl|].
      by destruct (getContents _ _ _).
  - destruct (Item (Query request) "mml") as [mml|] eqn:Hmml;
      [|unfold Page_Load; by rewrite Hid, Hmml].
    rewrite !(Page_Load_mml _ _ _ _ Hid Hmml). cbv zeta. rewrite <- Hlocked.
    destruct (getContents _ _ _); [|by simpl].
    destruct (bool_decide _); simpl; by rewrite Hfiles.
Qed.

(** X13. A [formula] request that is not cacheable leaves no trace for the
    requests that follow: whatever request comes next gets the answer, and
    leaves the files, it would have without it.  Overrides cannot poison
    the cache. *)
Theorem uncached_request_leaves_no_trace (config : gmap string string)
    (request next : Request) (id : string) (w : World) :
  Item (Query request) "formula" = Some id →
  mustBeCached request = false →
  let after := (Page_Load config request w).2 in
  (Page_Load config next after).1 = (Page_Load config next w).1
  ∧ files (Page_Load config next after).2 = files (Page_Load config next w).2.
Proof.
  intros Hid Hcached after. apply Page_Load_history; subst after.
  - destruct (GetFileNameWithoutExtension id) as [formula|] eqn:Hformula;
      [|unfold Page_Load; by rewrite Hid, Hformula].
    rewrite (Page_Load_formula _ _ _ _ _ Hid Hformula), Hcached. cbv zeta.
    match goal with
    | |- context [createImage ?r ?c ?p ?e ?b ?w'] =>
        destruct (createImage_effect r c p e b w') as (Hfiles & _);
        destruct (createImage r c p e b w') as [[e'|stream] w3]
    end; done.
  - destruct (GetFileNameWithoutExtension id) as [formula|] eqn:Hformula;
      [|unfold Page_Load; by rewrite Hid, Hformula].
    rewrite (Page_Load_formula _ _ _ _ _ Hid Hformula), Hcached. cbv zeta.
    match goal with
    | |- context [createImage ?r ?c ?p ?e ?b ?w'] =>
        destruct (createImage_effect r c p e b w') as (_ & Hlocked & _);
        destruct (createImage r c p e b w') as [[e'|stream] w3]
    end; done.
Qed.

(** X14. [saveImage] replaces the file by the whole stream, however long
    the stream is compared to the buffer and whatever the file held; when
    the file cannot be created it raises and no file changes. *)
Theorem saveImage_whole_stream (imagePath : string) (stream : list Byte.byte)
    (w : World) :
  let run := saveImage imagePath stream w in
  (imagePath ∉ unwritable w →
   run.1 = inr tt
   ∧ files run.2 = <[imagePath := stream]> (files w)
   ∧ accesses run.2 = accesses w ++ [Create imagePath])
  ∧ (imagePath ∈ unwritable w →
     run.1 = inl (IOException imagePath) ∧ files run.2 = files w).
Proof.
  cbv zeta. rewrite saveImage_run. split.
  - intros Hwritable. by rewrite bool_decide_eq_false_2.
  - intros Hlocked. by rewrite bool_decide_eq_true_2.
Qed.

Lemma LastIndexWhere_None (p : ascii → bool) (s : string) :
  existsChar p s = false → LastIndexWhere p s = None.
Proof.
  induction s as [|c s IH]; simpl; [done|].
  intros [-> Hs]%orb_false_elim. by rewrite IH.
Qed.

Lemma GetFileNameWithoutExtension_plain (id : string) :
  existsChar IllegalPathChar id = false →
  existsChar IsSeparator id = false →
  existsChar (Ascii.eqb ".") id = false →
  GetFileNameWithoutExtension id = Some id.
Proof.
  intros Hlegal Hseparator Hdot. unfold GetFileNameWithoutExtension, GetFileName.
  rewrite Hlegal, (LastIndexWhere_None _ _ Hseparator).
  by rewrite (LastIndexWhere_None _ _ Hdot).
Qed.

(** X15. An identifier without a directory separator, a dot or a character
    that is illegal in a path is its own stem: the first file the request
    for [id] looks at is [formulaDir/id.ini], and when the request is
    cacheable the second is [cacheDir/id.png]. *)
Theorem plain_identifier_is_its_stem (config : gmap string string)
    (request : Request) (id : string) (w : World) :
  Item (Query request) "formula" = Some id →
  existsChar IllegalPathChar id = false →
  existsChar IsSeparator id = false →
  existsChar (Ascii.eqb ".") id = false →
  ∃ rest,
    accesses (Page_Load config request w).2
      = accesses w ++ Probe (formulaPathOf config id +:+ ".ini") :: rest
    ∧ (mustBeCached request = true →
       ∃ rest', rest = Probe (imagePathOf config id) :: rest').
Proof.
  intros Hid Hlegal Hseparator Hdot.
  pose proof (GetFileNameWithoutExtension_plain id Hlegal Hseparator Hdot) as Hstem.
  rewrite (Page_Load_formula _ _ _ _ _ Hid Hstem). cbv zeta.
  set (formulaPath := formulaPathOf config id).
  set (imagePath := imagePathOf config id).
  assert (∀ b w', ∃ e w3,
            createImage request config formulaPath (extensionOf formulaPath w) b w'
              = (e, w3)
            ∧ ∃ a, accesses w3 = accesses w' ++ [a]) as Hcreate.
  { intros b w'.
    destruct (createImage_effect request config formulaPath
                (extensionOf formulaPath w) b w') as (_ & _ & Haccesses & _).
    destruct (createImage request config formulaPath _ b w') as [e w3]. eauto. }
  destruct (mustBeCached request).
  - destruct (files w !! imagePath).
    + eexists. split; [simpl; by rewrite <- !app_assoc|]. simpl. eauto.
    + destruct (Hcreate false (logged (Probe imagePath)
                  (logged (Probe (formulaPath +:+ ".ini")) w)))
        as (e & w3 & -> & a & Haccesses).
      destruct e as [e|stream]; [|destruct (bool_decide _)]; simpl;
        rewrite Haccesses; simpl; rewrite <- !app_assoc; simpl;
        (eexists; split; [done|]); eauto.
  - destruct (Hcreate true (logged (Probe (formulaPath +:+ ".ini")) w))
      as (e & w3 & -> & a & Haccesses).
    destruct e as [e|stream]; simpl;
      rewrite Haccesses; simpl; rewrite <- !app_assoc; simpl;
      (eexists; split; [done|]); done.
Qed.

(** X16. The key/value file takes precedence: when [formulaDir/stem.ini]
    exists, [Page_Load] settles on it and never touches
    [formulaDir/stem.xml], whatever the request does next. *)
Theorem ini_takes_precedence (config : gmap string string) (request : Request)
    (id formula : string) (w : World) :
  let formulaPath := formulaPathOf config formula in
  Item (Query request) "formula" = Some id →
  GetFileNameWithoutExtension id = Some formula →
  is_Some (files w !! (formulaPath +:+ ".ini")) →
  extensionOf formulaPath w = "ini"
  ∧ ∃ new, accesses (Page_Load config request w).2 = accesses w ++ new
           ∧ ∀ a, a ∈ new → accessPath a ≠ formulaPath +:+ ".xml".
Proof.
  intros formulaPath Hid Hformula Hini.
  assert (extensionOf formulaPath w = "ini") as Hextension.
  { unfold extensionOf. by rewrite bool_decide_eq_true_2. }
  split; [done|].
  assert (formulaPath +:+ ".ini" ≠ formulaPath +:+ ".xml") as Hne.
  { by intros [=]%(inj (String.app formulaPath)). }
  assert (imagePathOf config formula ≠ formulaPath +:+ ".xml") as Himage.
  { intros Heq. by apply (descriptorPath_not_image config formulaPath "xml" formula). }
  rewrite (Page_Load_formula _ _ _ _ _ Hid Hformula). cbv zeta.
  fold formulaPath. rewrite Hextension.
  assert (∀ b w', ∃ e w3,
            createImage request config formulaPath "ini" b w' = (e, w3)
            ∧ accesses w3 = accesses w' ++ [Read (formulaPath +:+ ".ini")])
    as Hcreate.
  { intros b w'.
    destruct (createImage_effect request config formulaPath "ini" b w')
      as (_ & _ & Haccesses & _).
    destruct (createImage request config formulaPath "ini" b w') as [e w3]. eauto. }
  destruct (mustBeCached request).
  - destruct (files w !! imagePathOf config formula).
    + eexists. split; [simpl; by rewrite <- !app_assoc|].
      apply Forall_forall. simpl. repeat constructor; done.
    + destruct (Hcreate false (logged (Probe (imagePathOf config formula))
                  (logged (Probe (formulaPath +:+ ".ini")) w)))
        as (e & w3 & -> & Haccesses).
      destruct e as [e|stream]; [|destruct (bool_decide _)]; simpl;
        rewrite Haccesses; simpl; rewrite <- !app_assoc;
        (eexists; split; [done|]);
        apply Forall_forall; simpl; repeat constructor; done.
  - destruct (Hcreate true (logged (Probe (formulaPath +:+ ".ini")) w))
      as (e & w3 & -> & Haccesses).
    destruct e as [e|stream]; simpl;
      rewrite Haccesses; simpl; rewrite <- !app_assoc;
      (eexists; split; [done|]);
      apply Forall_forall; simpl; repeat constructor; done.
Qed.


End more_page.

(** ** The page at work on the example installation *)

Import Example.

(** C1 on a fresh [eq1]: rendered once, stored, and served twice. *)
Lemma cache_render_once_witness :
  ∃ w' w'' : World,
    files eq1_world !! "cache/eq1.png" = None
    ∧ Page_Load ∅ eq1_request eq1_world = (inr (File "image/png" eq1_png), w')
    ∧ files w' !! "cache/eq1.png" = Some eq1_png
    ∧ Page_Load ∅ eq1_request w' = (inr (File "image/png" eq1_png), w'')
    ∧ length (renders w'') = 1.
Proof.
  destruct (cache_render_once ∅ eq1_request "eq1" "eq1" eq1_world) as [_ Hmiss];
    [reflexivity..|].
  destruct (Hmiss eq1 eq1_png) as (w' & w'' & Hfirst & Hfiles & _ & Hsecond & Hcalls).
  - vm_compute. reflexivity.
  - vm_compute. reflexivity.
  - vm_compute. reflexivity.
  - vm_compute. discriminate.
  - exists w', w''. split; [vm_compute; reflexivity|].
    split; [exact Hfirst|]. split.
    + rewrite Hfiles. apply lookup_insert_eq.
    + split; [exact Hsecond|]. rewrite Hcalls. reflexivity.
Defined.

(** C2 on [eq1] with a font size in the query: rendered with the override,
    and the cache is left alone. *)
Lemma uncached_request_witness :
  let run := Page_Load ∅ eq1_big eq1_world in
  mustBeCached eq1_big = false
  ∧ files run.2 = files eq1_world
  ∧ run.1 = inr (File "image/png" eq1_png)
  ∧ ∃ properties,
      renders run.2 = [("http://services.example/render", properties, "http://host/page")]
      ∧ properties !! "fontSize" = Some "20".
Proof.
  destruct (uncached_request ∅ eq1_big "eq1" "eq1" "fontSize" eq1_world)
    as (Hcached & Hfiles & _ & Hrender);
    [reflexivity | reflexivity | | reflexivity |].
  { apply list_elem_of_further, list_elem_of_here. }
  destruct (Hrender eq1) as [Hcalls Hresult]; [vm_compute; reflexivity|].
  split; [exact Hcached|]. split; [exact Hfiles|]. split.
  - rewrite Hresult. vm_compute. reflexivity.
  - eexists. split; [exact Hcalls|]. vm_compute. reflexivity.
Defined.

(** C9 on [eq1] when [cache/eq1.png] cannot be created: rendered, and
    lost. *)
Lemma cache_write_failure_fails_request_witness :
  let run := Page_Load ∅ eq1_request eq1_locked in
  run.1 = inl (IOException "cache/eq1.png")
  ∧ files run.2 = files eq1_locked
  ∧ length (renders run.2) = 1.
Proof.
  destruct (cache_write_failure_fails_request ∅ eq1_request "eq1" "eq1" eq1 eq1_png
              eq1_locked) as (Hresult & Hfiles & Hcalls);
    [reflexivity | reflexivity | reflexivity | vm_compute; reflexivity
    | vm_compute; reflexivity | vm_compute; reflexivity | vm_compute; reflexivity |].
  split; [exact Hresult|]. split; [exact Hfiles|]. rewrite Hcalls. reflexivity.
Defined.

(** C9 as claimed fails there: the renderer returned the image, and the
    response is the exception, not the image. *)
Lemma cache_write_failure_not_served :
  let run := Page_Load ∅ eq1_request eq1_locked in
  renders run.2
    = [("http://services.example/render", eq1_properties, "http://host/page")]
  ∧ getContents "http://services.example/render" eq1_properties "http://host/page"
    = Some eq1_png
  ∧ run.1 = inl (IOException "cache/eq1.png")
  ∧ run.1 ≠ inr (File "image/png" eq1_png).
Proof.
  repeat split; vm_compute; (reflexivity || discriminate).
Qed.

(** C3 on ["../secret"]: the stem is [secret], and the first thing the page
    does is to look for [formulas/secret.ini]. *)
Lemma identifier_reduced_to_stem_witness :
  GetFileNameWithoutExtension "../secret" = Some "secret"
  ∧ ∃ rest, accesses (Page_Load ∅ secret_request secret_world).2
            = Probe "formulas/secret.ini" :: rest.
Proof.
  pose proof (identifier_reduced_to_stem ∅ secret_request "../secret" secret_world
                eq_refl) as Hstem.
  change (GetFileNameWithoutExtension "../secret") with (Some "secret") in Hstem.
  destruct Hstem as [_ Hrest]. split; [reflexivity | exact Hrest].
Defined.

(** C3 as claimed fails on ["../secret"]: the request is not turned down; the
    page reads [formulas/secret.xml], renders it, and serves the image. *)
Lemma traversal_identifier_not_rejected :
  let run := Page_Load ∅ secret_request secret_world in
  run.1 = inr (File "image/png" (list_byte_of_string "<math/>"))
  ∧ accesses run.2
    = [Probe "formulas/secret.ini"; Probe "cache/secret.png";
       Read "formulas/secret.xml"; Create "cache/secret.png"; Read "cache/secret.png"]
  ∧ ¬ rejectedBeforeAccess run secret_world.
Proof.
  split; [vm_compute; reflexivity|]. split; [vm_compute; reflexivity|].
  intros [_ Hnone]. vm_compute in Hnone. discriminate Hnone.
Qed.

(** The empty identifier is not turned down either. *)
Example empty_identifier_not_rejected :
  ¬ rejectedBeforeAccess (Page_Load ∅ (get [("formula", "")]) secret_world) secret_world.
Proof. intros [_ Hnone]. vm_compute in Hnone. discriminate Hnone. Qed.

(** C5 on [eq1], from its file in line format: no number colour in the
    file, red numbers in the parameters. *)
Lemma symbolcolor_inherited_witness :
  parseLines ∅ eq1_xml = inr eq1
  ∧ config eq1 !! "wirisimagenumbercolor" = None
  ∧ imageProperties eq1_request eq1 false !! "numberColor" = Some "red".
Proof.
  assert (parseLines ∅ eq1_xml = inr eq1) as Hparsed by (vm_compute; reflexivity).
  split; [exact Hparsed|]. split; [reflexivity|].
  apply (symbolcolor_inherited eq1_request ∅ eq1_xml [] eq1 false
           "wirisimagenumbercolor" "numberColor" "red").
  - left. exact Hparsed.
  - left. reflexivity.
  - vm_compute. reflexivity.
  - vm_compute. reflexivity.
  - vm_compute. reflexivity.
  - reflexivity.
  - left. reflexivity.
Defined.

(** The same descriptor from a key/value file gets the same colours. *)
Example symbolcolor_inherited_from_ini :
  let entries := parseIni (unlines ["mml=<math><mi>x</mi></math>"; "bgColor=white";
                                    "symbolColor=red"]) in
  fromIniEntries ∅ entries = inr eq1
  ∧ computedProperties eq1 !! "numberColor" = Some "red"
  ∧ computedProperties eq1 !! "identColor" = Some "red".
Proof. repeat split; vm_compute; reflexivity. Qed.

(** C6 on the example of the specification, with a range name that does
    not resolve in between: [rangeB] is the second that resolves, and
    becomes [font3]. *)
Lemma fontranges_continue_numbering_witness :
  resolvedRanges (finalConfig ranged) (Split "," "rangeA, rangeX,rangeB")
    = ["10-20"; "30-40"]
  ∧ finalFonts ranged !! "font3" = Some "30-40"
  ∧ computedProperties ranged !! "font3" = Some "30-40".
Proof.
  destruct (fontranges_continue_numbering ranged "rangeA, rangeX,rangeB" 1 "30-40")
    as (Hfont & Hproperty & _).
  - vm_compute. reflexivity.
  - vm_compute. reflexivity.
  - split; [vm_compute; reflexivity|]. split; [exact Hfont | exact Hproperty].
Defined.

(** The whole of that example. *)
Example fontranges_example :
  finalFonts ranged
    = {[ "font0" := "Arial"; "font1" := "Courier";
         "font2" := "10-20"; "font3" := "30-40" ]}.
Proof. vm_compute. reflexivity. Qed.

(** C8 on an [mml] request: rendered, written to [cache/temp.png], served. *)
Lemma mml_request_single_slot_witness :
  let run := Page_Load ∅ mml_request temp_world in
  run.1 = inr (File "image/png" (list_byte_of_string "<mi>x</mi>"))
  ∧ files run.2 !! "cache/temp.png" = Some (list_byte_of_string "<mi>x</mi>")
  ∧ accesses run.2 = [Create "cache/temp.png"; Read "cache/temp.png"]
  ∧ length (renders run.2) = 1.
Proof.
  destruct (mml_request_single_slot ∅ mml_request "<mi>x</mi>" temp_world)
    as (Hcalls & _ & _ & _ & _ & Hserved); [reflexivity..|].
  destruct (Hserved (list_byte_of_string "<mi>x</mi>"))
    as (Hresult & Hfile & Haccesses);
    [vm_compute; reflexivity | vm_compute; discriminate |].
  split; [exact Hresult|]. split; [exact Hfile|]. split; [exact Haccesses|].
  rewrite Hcalls. reflexivity.
Defined.

(** C8 as claimed fails for the identifier [temp]: the [mml] request creates
    the very file that caches the formula [temp], and the next request for
    that formula is served the image of the [mml] request, not its own. *)
Lemma mml_request_writes_temp_entry :
  let run := Page_Load ∅ mml_request temp_world in
  Create (imagePathOf ∅ "temp") ∈ accesses run.2
  ∧ (Page_Load ∅ temp_request temp_world).1
    = inr (File "image/png" (list_byte_of_string "<mn>1</mn>"))
  ∧ (Page_Load ∅ temp_request run.2).1
    = inr (File "image/png" (list_byte_of_string "<mi>x</mi>")).
Proof.
  split; [|split]; [|vm_compute; reflexivity..].
  assert (accesses (Page_Load ∅ mml_request temp_world).2
          = [Create (imagePathOf ∅ "temp"); Read (imagePathOf ∅ "temp")]) as Haccesses
    by (vm_compute; reflexivity).
  cbv zeta. rewrite Haccesses. apply list_elem_of_here.
Qed.

(** C7 and the spelling of a key: [fontSize] is an attribute name and
    overrides the font size of [eq1]; [FontSize] is not, and the request
    stays cacheable. *)
Example override_spelling :
  imageProperties (get [("fontSize", "20")]) eq1 true !! "fontSize" = Some "20"
  ∧ imageProperties (get [("FontSize", "20")]) eq1 true
    = computedProperties eq1
  ∧ mustBeCached (get [("FontSize", "20")]) = true.
Proof. split; [|split]; vm_compute; reflexivity. Qed.

(** The names of the query are looked up ignoring case: a request with
    [Formula] and [mml] is a request for the stored formula, and the
    [mml] slot is left alone. *)
Example formula_name_ignores_case :
  let request := get [("Formula", "eq1"); ("mml", "<mi>y</mi>")] in
  Item (Query request) "formula" = Some "eq1"
  ∧ Page_Load ∅ request eq1_world = Page_Load ∅ eq1_request eq1_world
  ∧ files (Page_Load ∅ request eq1_world).2 !! "cache/temp.png" = None.
Proof. split; [|split]; vm_compute; reflexivity. Qed.

(** C10 on [eq1]: another language in the query, the same answer. *)
Lemma cacheable_request_ignores_query_witness :
  Page_Load ∅ eq1_request eq1_world
    = Page_Load ∅ (get [("lang", "ca"); ("formula", "eq1")]) eq1_world.
Proof.
  apply (cacheable_request_ignores_query ∅ eq1_request
           (get [("lang", "ca"); ("formula", "eq1")]) "eq1" eq1_world);
    reflexivity.
Defined.

(** C4 on a descriptor without a font size: the same reading from both
    files, whatever the order of the entries. *)
Lemma formats_read_alike_witness :
  ∃ configAndFonts,
    parseLines ∅ plain_xml = inr configAndFonts
    ∧ fromIniEntries ∅ (parseIni plain_ini) = inr configAndFonts
    ∧ mathml configAndFonts = "<math/>".
Proof.
  apply (formats_read_alike ∅ plain plain_xml (parseIni plain_ini)).
  - unfold readAlike. repeat split.
    + simpl. lia.
    + left. reflexivity.
    + repeat constructor; (by eexists) || done.
    + by apply (bool_decide_unpack _).
    + constructor.
  - vm_compute. reflexivity.
  - unfold inKeyValueFormat.
    change (parseIni plain_ini)
      with ([("symbolColor", " black ")] ++ [("mml", " <math/>"); ("bgColor", "white")]).
    change (keyValueEntries plain)
      with ([("mml", " <math/>"); ("bgColor", "white")] ++ [("symbolColor", " black ")]).
    apply Permutation_app_comm.
Defined.

(** C4 as claimed fails on a descriptor with a font size: the line reader
    puts the fourth line under the configuration key of [fontSize], the
    key/value reader puts the entry [fontSize] among the fonts. *)
Lemma formats_read_differently :
  inLineFormat sized sized_xml
  ∧ inKeyValueFormat sized (parseIni sized_ini)
  ∧ parseLines ∅ sized_xml
    = inr {| mathml := "<math/>";
             config := {[ "wirisimagebgcolor" := "white";
                          "wirisimagesymbolcolor" := "black";
                          "wiristransparency" := "";
                          "wirisimagefontsize" := "12" ]};
             fonts := ∅ |}
  ∧ fromIniEntries ∅ (parseIni sized_ini)
    = inr {| mathml := "<math/>";
             config := {[ "wirisimagebgcolor" := "white";
                          "wirisimagesymbolcolor" := "black";
                          "wiristransparency" := "" ]};
             fonts := {[ "fontSize" := "12" ]} |}
  ∧ parseLines ∅ sized_xml ≠ fromIniEntries ∅ (parseIni sized_ini).
Proof.
  assert (parseIni sized_ini = keyValueEntries sized) as Hentries
    by (vm_compute; reflexivity).
  split; [vm_compute; reflexivity|].
  split; [unfold inKeyValueFormat; by rewrite Hentries|].
  split; [vm_compute; reflexivity|]. split; [vm_compute; reflexivity|].
  vm_compute. discriminate.
Qed.

(** With no attribute named [font...] at all, a blank font line still
    tells the readers apart: the line reader skips it and numbers the next
    font [font0]. *)
Example blank_font_read_differently :
  inLineFormat blank blank_xml
  ∧ @inKeyValueFormat oneAttribute blank (parseIni blank_ini)
  ∧ @parseLines oneAttribute ∅ blank_xml
    = inr {| mathml := "<math/>"; config := {[ "wirisimagebgcolor" := "white" ]};
             fonts := {[ "font0" := "Arial" ]} |}
  ∧ @fromIniEntries oneAttribute ∅ (parseIni blank_ini)
    = inr {| mathml := "<math/>"; config := {[ "wirisimagebgcolor" := "white" ]};
             fonts := {[ "font0" := ""; "font1" := "Arial" ]} |}.
Proof.
  assert (parseIni blank_ini = @keyValueEntries oneAttribute blank) as Hentries
    by (vm_compute; reflexivity).
  split; [vm_compute; reflexivity|].
  split; [unfold inKeyValueFormat; by rewrite Hentries|].
  split; vm_compute; reflexivity.
Qed.

(** ** More examples *)

(** X1 on an installation whose second attribute has no translation: a
    file with one attribute line is read, a file with two is not. *)
Lemma line_reader_outcome_witness :
  (∃ configAndFonts,
     @parseLines untranslated ∅ (unlines ["<math/>"; "white"]) = inr configAndFonts)
  ∧ @parseLines untranslated ∅ (unlines ["<math/>"; "white"; "2"])
    = inl ArgumentNullException.
Proof.
  split.
  - apply (@line_reader_outcome untranslated ∅ (unlines ["<math/>"; "white"])).
    repeat constructor. by eexists.
  - apply (proj2 (@line_reader_outcome untranslated ∅
                    (unlines ["<math/>"; "white"; "2"]))).
    intros Hall. vm_compute in Hall.
    inversion Hall as [|? ? _ Hrest]. inversion Hrest as [|? ? [? Hnone] _].
    discriminate Hnone.
Defined.

(** X2 on [fonts_xml]: the blank line is skipped, and [Courier] is
    [font1]. *)
Lemma line_fonts_numbered_witness :
  parseLines server fonts_xml = inr fonts_descriptor
  ∧ size (fonts fonts_descriptor) = 2
  ∧ fonts fonts_descriptor !! "font1" = Some "Courier".
Proof.
  assert (parseLines server fonts_xml = inr fonts_descriptor) as Hparsed
    by (vm_compute; reflexivity).
  destruct (line_fonts_numbered server fonts_xml fonts_descriptor Hparsed)
    as (Hsize & Hfont & _).
  split; [exact Hparsed|]. split; [exact Hsize | exact (Hfont 1)].
Defined.

(** X3 on [fonts_xml] with the font range of [server]: two fonts in the
    file, three in the end, the first two as they were. *)
Lemma line_fontranges_extend_witness :
  parseLines server fonts_xml = inr fonts_descriptor
  ∧ size (finalFonts fonts_descriptor) = 3
  ∧ finalFonts fonts_descriptor !! "font1" = Some "Courier".
Proof.
  assert (parseLines server fonts_xml = inr fonts_descriptor) as Hparsed
    by (vm_compute; reflexivity).
  destruct (line_fontranges_extend server fonts_xml fonts_descriptor Hparsed)
    as [Hkept Hsize].
  split; [exact Hparsed|]. split.
  - rewrite Hsize. vm_compute. reflexivity.
  - apply Hkept. vm_compute. reflexivity.
Defined.

(** In key/value format a font range can replace a font of the file: with
    [font1] as its only font, the file has one font, and the range is
    written to [font1]. *)
Example ini_fontrange_replaces_font :
  let configAndFonts :=
    {| mathml := "<math/>"; config := server; fonts := {[ "font1" := "Arial" ]} |} in
  fromIniEntries server [("mml", "<math/>"); ("font1", "Arial")] = inr configAndFonts
  ∧ finalFonts configAndFonts !! "font1" = Some "10-20".
Proof. split; vm_compute; reflexivity. Qed.

(** X4 on three sets of entries: an unknown key, no [mml], and both right. *)
Lemma ini_reader_outcome_witness :
  fromIniEntries ∅ [("mml", "<math/>"); ("colour", "red")] = inl ArgumentNullException
  ∧ fromIniEntries ∅ [("bgColor", "white")] = inl NullReferenceException
  ∧ ∃ configAndFonts,
      fromIniEntries ∅ [("bgColor", "white"); ("mml", " <math/> ")] = inr configAndFonts
      ∧ mathml configAndFonts = "<math/>".
Proof.
  split; [|split].
  - apply (ini_reader_outcome ∅ [("mml", "<math/>"); ("colour", "red")]).
    exists ("colour", "red"). split; [|reflexivity].
    apply list_elem_of_further, list_elem_of_here.
  - apply (proj2 (ini_reader_outcome ∅ [("bgColor", "white")])).
    intros entry Hentry%list_elem_of_singleton. by subst entry.
  - apply (proj2 (ini_reader_outcome ∅ [("bgColor", "white"); ("mml", " <math/> ")])).
    intros entry [->|Hentry%list_elem_of_singleton]%elem_of_cons;
      [|subst entry]; reflexivity.
Defined.

(** X5 on [fonts_xml] read on top of [server]: the font range of the
    server is still there. *)
Lemma readers_keep_server_config_witness :
  parseLines server fonts_xml = inr fonts_descriptor
  ∧ is_Some (config fonts_descriptor !! "wirisimagefontranges")
  ∧ is_Some (config fonts_descriptor !! "rangeA").
Proof.
  assert (parseLines server fonts_xml = inr fonts_descriptor) as Hparsed
    by (vm_compute; reflexivity).
  destruct (readers_keep_server_config server fonts_xml [] fonts_descriptor)
    as [_ Hkept]; [by left|].
  split; [exact Hparsed|]. split; apply Hkept; by eexists.
Defined.

(** X8 on [eq1] with [mml] and a font size in the query: the font size is
    taken, the MathML is not. *)
Lemma mml_comes_from_descriptor_witness :
  mustBeCached eq1_forged = false
  ∧ imageProperties eq1_forged eq1 true !! "fontSize" = Some "20"
  ∧ imageProperties eq1_forged eq1 true !! "mml" = Some "<math><mi>x</mi></math>".
Proof.
  split; [reflexivity|]. split; [vm_compute; reflexivity|].
  apply (mml_comes_from_descriptor eq1_forged ∅ eq1_xml [] eq1 true).
  - left. vm_compute. reflexivity.
  - vm_compute. reflexivity.
  - reflexivity.
Defined.

(** X11 on the formula without MathML: refused, and nothing cached. *)
Lemma renderer_failure_leaves_cache_witness :
  let run := Page_Load ∅ empty_request empty_world in
  run.1 = inl WebException
  ∧ files run.2 = files empty_world
  ∧ length (renders run.2) = 1.
Proof.
  destruct (renderer_failure_leaves_cache ∅ empty_request "empty" "empty" empty
              empty_world) as (Hresult & Hfiles & _ & Hcalls);
    [reflexivity | reflexivity | reflexivity | vm_compute; reflexivity
    | vm_compute; reflexivity | vm_compute; reflexivity |].
  split; [exact Hresult|]. split; [exact Hfiles | exact Hcalls].
Defined.

(** X12 on [eq1] and [../x/eq1.png]. *)
Lemma identifiers_with_one_stem_witness :
  Page_Load ∅ eq1_request eq1_world = Page_Load ∅ eq1_alias eq1_world.
Proof.
  apply (identifiers_with_one_stem ∅ eq1_request eq1_alias "eq1" "../x/eq1.png");
    reflexivity.
Defined.

(** X13 on [eq1]: a request with a font size, then the plain request. *)
Lemma uncached_request_leaves_no_trace_witness :
  (Page_Load ∅ eq1_request (Page_Load ∅ eq1_big eq1_world).2).1
    = (Page_Load ∅ eq1_request eq1_world).1.
Proof.
  apply (uncached_request_leaves_no_trace ∅ eq1_big eq1_request "eq1" eq1_world);
    reflexivity.
Defined.

(** X14 on a stream of 20000 bytes, written over a file. *)
Lemma saveImage_whole_stream_witness :
  let run := saveImage "formulas/eq1.xml" long_stream eq1_world in
  (bufferLength <? length long_stream) = true
  ∧ run.1 = inr tt
  ∧ files run.2 = <["formulas/eq1.xml" := long_stream]> (files eq1_world).
Proof.
  destruct (proj1 (saveImage_whole_stream "formulas/eq1.xml" long_stream eq1_world))
    as (Hresult & Hfiles & _); [vm_compute; discriminate|].
  split; [vm_compute; reflexivity|]. split; [exact Hresult | exact Hfiles].
Defined.

(** X15 on [eq1]. *)
Lemma plain_identifier_is_its_stem_witness :
  ∃ rest,
    accesses (Page_Load ∅ eq1_request eq1_world).2
      = Probe "formulas/eq1.ini" :: Probe "cache/eq1.png" :: rest.
Proof.
  destruct (plain_identifier_is_its_stem ∅ eq1_request "eq1" eq1_world)
    as (rest & Haccesses & Hcached); [reflexivity..|].
  destruct (Hcached eq_refl) as [rest' ->].
  exists rest'. exact Haccesses.
Defined.

(** X16 on a formula with both files: the [.xml] is left alone. *)
Lemma ini_takes_precedence_witness :
  ∃ new, accesses (Page_Load ∅ eq2_request both_world).2 = new
         ∧ ∀ a, a ∈ new → accessPath a ≠ "formulas/eq2.xml".
Proof.
  destruct (ini_takes_precedence ∅ eq2_request "eq2" "eq2" both_world)
    as (_ & new & Haccesses & Hnew); [reflexivity | reflexivity | by eexists |].
  exists new. split; [exact Haccesses | exact Hnew].
Defined.

(** The [.ini] of that formula is the one rendered. *)
Example ini_is_rendered :
  (Page_Load ∅ eq2_request both_world).1
    = inr (File "image/png" (list_byte_of_string "<mn>2</mn>")).
Proof. vm_compute. reflexivity. Qed.

(** X17 on [plain] in line format: the blanks around the MathML and around
    [black] are gone. *)
Lemma readers_return_trimmed_witness :
  parseLines ∅ plain_xml = inr plain_descriptor
  ∧ Trim (mathml plain_descriptor) = mathml plain_descriptor
  ∧ Trim "black" = "black".
Proof.
  assert (parseLines ∅ plain_xml = inr plain_descriptor) as Hparsed
    by (vm_compute; reflexivity).
  destruct (readers_return_trimmed ∅ plain_xml [] plain_descriptor)
    as (Hmathml & _ & Hconfig); [by left|].
  split; [exact Hparsed|]. split; [exact Hmathml|].
  destruct (Hconfig "wirisimagesymbolcolor" "black") as [Hserver|Htrimmed];
    [reflexivity | discriminate Hserver | exact Htrimmed].
Defined.

(** X18 on the entries of [plain_ini], in two orders. *)
Lemma ini_reader_order_witness :
  fromIniEntries ∅ (parseIni plain_ini)
    = fromIniEntries ∅ (reverse (parseIni plain_ini)).
Proof.
  apply ini_reader_order.
  - by apply (bool_decide_unpack _).
  - by apply (bool_decide_unpack _).
  - apply Permutation_rev.
Defined.

